(** * A chess rules engine and its alpha-beta searcher

    Shallow embedding of [engine/constants.py], [engine/move.py],
    [engine/board.py], [engine/move_generator.py], [engine/zobrist.py],
    [engine/game.py], [evaluators/material.py], [search/minimax.py] and
    [api/session.py], followed by the properties established on it.

    Python integers are [Z]; the 64-cell [squares] list is a [list] read and
    written through stdpp's lookup and insert; a Python exception is a
    [Raise] in the small error monad [res]. *)

From Stdlib Require Import Ascii String.
From Stdlib Require Import ZArith List Bool Lia.
From stdpp Require Import base list gmap.

Local Open Scope Z_scope.

(* ===================================================================== *)
(** ** Exceptions *)
(* ===================================================================== *)

Inductive exn : Type :=
| AssertionError | IndexError | TypeError | ValueError | RecursionError.

Inductive res (A : Type) : Type :=
| Ok (a : A)
| Raise (e : exn).
Arguments Ok {A} a.
Arguments Raise {A} e.

Definition bind {A B : Type} (c : res A) (k : A -> res B) : res B :=
  match c with
  | Ok a => k a
  | Raise e => Raise e
  end.

Notation "x <- c ;; k" := (bind c (fun x => k))
  (at level 100, c at next level, right associativity).

(* ===================================================================== *)
(** ** engine/constants.py *)
(* ===================================================================== *)

Inductive Color : Type := WHITE | BLACK.
Inductive PieceType : Type := PAWN | KNIGHT | BISHOP | ROOK | QUEEN | KING.

Definition Piece : Type := (Color * PieceType)%type.

#[export] Instance Color_eq_dec : EqDecision Color.
Proof. solve_decision. Defined.
#[export] Instance PieceType_eq_dec : EqDecision PieceType.
Proof. solve_decision. Defined.

(** [int(color)] and [int(piece_type)] of the two [IntEnum]s. *)
Definition Color_int (c : Color) : Z :=
  match c with WHITE => 0 | BLACK => 1 end.

Definition PieceType_int (pt : PieceType) : Z :=
  match pt with
  | PAWN => 0 | KNIGHT => 1 | BISHOP => 2 | ROOK => 3 | QUEEN => 4 | KING => 5
  end.

Definition Color_eqb (a b : Color) : bool := bool_decide (a = b).
Definition PieceType_eqb (a b : PieceType) : bool := bool_decide (a = b).

(** The idiom [Color.BLACK if color == Color.WHITE else Color.WHITE]. *)
Definition other (c : Color) : Color :=
  match c with WHITE => BLACK | BLACK => WHITE end.

Definition sq (row col : Z) : Z := row * 8 + col.
Definition row_col (square : Z) : Z * Z := (square / 8, square mod 8).

(* ===================================================================== *)
(** ** Python list indexing *)
(* ===================================================================== *)

(** [l[i]] accepts [-len(l) <= i < len(l)], counting a negative index from
    the end, and raises [IndexError] otherwise. *)
Definition py_index (n : nat) (i : Z) : res nat :=
  if (0 <=? i) && (i <? Z.of_nat n) then Ok (Z.to_nat i)
  else if (- Z.of_nat n <=? i) && (i <? 0) then Ok (Z.to_nat (i + Z.of_nat n))
  else Raise IndexError.

Definition getitem {A : Type} (l : list A) (i : Z) : res A :=
  n <- py_index (length l) i ;;
  match l !! n with
  | Some x => Ok x
  | None => Raise IndexError
  end.

Definition setitem {A : Type} (l : list A) (i : Z) (x : A) : res (list A) :=
  n <- py_index (length l) i ;;
  Ok (<[n := x]> l).

(* ===================================================================== *)
(** ** engine/move.py: the Move value *)
(* ===================================================================== *)

Record Move : Type := mkMove {
  from_sq : Z;
  to_sq : Z;
  promotion : option PieceType;
  is_castle : bool;
  is_en_passant : bool
}.

(** [Move(a, b)], [Move(a, b, promotion=pt)] and the two flagged forms. *)
Definition Move_plain (a b : Z) : Move := mkMove a b None false false.
Definition Move_promo (a b : Z) (pt : PieceType) : Move :=
  mkMove a b (Some pt) false false.
Definition Move_castle (a b : Z) : Move := mkMove a b None true false.
Definition Move_ep (a b : Z) : Move := mkMove a b None false true.

(** [Move.__eq__]: the flags take no part in equality. *)
Definition Move_eq (a b : Move) : bool :=
  (from_sq a =? from_sq b) && (to_sq a =? to_sq b)
  && bool_decide (promotion a = promotion b).

(** [move in moves] on a list, through [__eq__]. *)
Definition Move_in (m : Move) (moves : list Move) : bool :=
  existsb (Move_eq m) moves.

(* ===================================================================== *)
(** ** engine/board.py *)
(* ===================================================================== *)

(** The dict [{'K': .., 'Q': .., 'k': .., 'q': ..}]; its four keys are fixed
    at construction and never added to or removed. *)
Record CastlingRights : Type := mkRights {
  wK : bool;  (* 'K' white kingside  *)
  wQ : bool;  (* 'Q' white queenside *)
  bk : bool;  (* 'k' black kingside  *)
  bq : bool   (* 'q' black queenside *)
}.

(** One entry of the undo stack. *)
Record Undo : Type := mkUndo {
  u_move : Move;
  u_captured : option Piece;
  u_ep_captured : option (Z * option Piece);
  u_castling_rights : CastlingRights;
  u_ep_square : option Z;
  u_halfmove_clock : Z;
  u_fullmove_number : Z
}.

(** [_history] is kept newest first: [append] is a cons, [pop] takes the
    head. *)
Record Board : Type := mkBoard {
  squares : list (option Piece);
  turn : Color;
  castling_rights : CastlingRights;
  ep_square : option Z;
  halfmove_clock : Z;
  fullmove_number : Z;
  _history : list Undo
}.

Definition _BACK_RANK : list PieceType :=
  [ROOK; KNIGHT; BISHOP; QUEEN; KING; BISHOP; KNIGHT; ROOK].

Definition all_rights : CastlingRights := mkRights true true true true.
Definition no_rights : CastlingRights := mkRights false false false false.

(** [Board()]: the empty board of [__init__]. *)
Definition Board_init : Board :=
  mkBoard (replicate 64 None) WHITE all_rights None 0 1 [].

Definition setup_start_position (b : Board) : Board :=
  mkBoard
    (((fun pt => Some (BLACK, pt)) <$> _BACK_RANK)
       ++ replicate 8 (Some (BLACK, PAWN))
       ++ replicate 32 None
       ++ replicate 8 (Some (WHITE, PAWN))
       ++ ((fun pt => Some (WHITE, pt)) <$> _BACK_RANK))
    WHITE all_rights None 0 1 [].

Definition _rook_castling_update (rights : CastlingRights) (square : Z)
  : CastlingRights :=
  if square =? sq 7 7 then mkRights false (wQ rights) (bk rights) (bq rights)
  else if square =? sq 7 0 then mkRights (wK rights) false (bk rights) (bq rights)
  else if square =? sq 0 7 then mkRights (wK rights) (wQ rights) false (bq rights)
  else if square =? sq 0 0 then mkRights (wK rights) (wQ rights) (bk rights) false
  else rights.

(** [squares[dst] = squares[src]; squares[src] = None]. *)
Definition relocate (sqs : list (option Piece)) (src dst : Z)
  : res (list (option Piece)) :=
  p <- getitem sqs src ;;
  s <- setitem sqs dst p ;;
  setitem s src None.

(** The rook step of castling in [make_move], chosen by the king's
    destination. *)
Definition castle_rook (sqs : list (option Piece)) (dest : Z)
  : res (list (option Piece)) :=
  if dest =? sq 7 6 then relocate sqs (sq 7 7) (sq 7 5)
  else if dest =? sq 7 2 then relocate sqs (sq 7 0) (sq 7 3)
  else if dest =? sq 0 6 then relocate sqs (sq 0 7) (sq 0 5)
  else if dest =? sq 0 2 then relocate sqs (sq 0 0) (sq 0 3)
  else Ok sqs.

(** The same step in [undo_move], in the other direction. *)
Definition uncastle_rook (sqs : list (option Piece)) (dest : Z)
  : res (list (option Piece)) :=
  if dest =? sq 7 6 then relocate sqs (sq 7 5) (sq 7 7)
  else if dest =? sq 7 2 then relocate sqs (sq 7 3) (sq 7 0)
  else if dest =? sq 0 6 then relocate sqs (sq 0 5) (sq 0 7)
  else if dest =? sq 0 2 then relocate sqs (sq 0 3) (sq 0 0)
  else Ok sqs.

Definition is_pawn (pt : PieceType) : bool := PieceType_eqb pt PAWN.

(** [Board.make_move].  A [Raise] stands for the exception the Python code
    would leave with; the half-updated board it would leave behind is not
    represented. *)
Definition make_move (b : Board) (move : Move) : res Board :=
  piece <- getitem (squares b) (from_sq move) ;;
  match piece with
  | None => Raise AssertionError
  | Some (color, piece_type) =>
      captured <- getitem (squares b) (to_sq move) ;;
      (* En passant capture: remove the captured pawn *)
      ep <-
        (if is_en_passant move then
           let ep_cap_row :=
             to_sq move / 8 + (match color with WHITE => 1 | BLACK => -1 end) in
           let ep_cap_sq := ep_cap_row * 8 + to_sq move mod 8 in
           victim <- getitem (squares b) ep_cap_sq ;;
           s <- setitem (squares b) ep_cap_sq None ;;
           Ok (Some (ep_cap_sq, victim), s)
         else Ok (None, squares b)) ;;
      let '(ep_captured, s1) := ep in
      (* Move the piece *)
      s2 <- setitem s1 (to_sq move) (Some (color, piece_type)) ;;
      s3 <- setitem s2 (from_sq move) None ;;
      (* Promotion *)
      s4 <- (match promotion move with
             | Some pt => setitem s3 (to_sq move) (Some (color, pt))
             | None => Ok s3
             end) ;;
      (* Castling: also move the rook *)
      s5 <- (if is_castle move then castle_rook s4 (to_sq move) else Ok s4) ;;
      (* Update en passant square *)
      let new_ep :=
        if is_pawn piece_type then
          let from_row := from_sq move / 8 in
          let to_row := to_sq move / 8 in
          if Z.abs (to_row - from_row) =? 2
          then Some (((from_row + to_row) / 2) * 8 + from_sq move mod 8)
          else None
        else None in
      (* Update castling rights *)
      let r0 := castling_rights b in
      let r1 :=
        match piece_type, color with
        | KING, WHITE => mkRights false false (bk r0) (bq r0)
        | KING, BLACK => mkRights (wK r0) (wQ r0) false false
        | _, _ => r0
        end in
      let r2 :=
        match piece_type with
        | ROOK => _rook_castling_update r1 (from_sq move)
        | _ => r1
        end in
      let r3 :=
        match captured with
        | Some _ => _rook_castling_update r2 (to_sq move)
        | None => r2
        end in
      (* Halfmove clock *)
      let hm :=
        if is_pawn piece_type || bool_decide (captured <> None)
           || is_en_passant move
        then 0 else halfmove_clock b + 1 in
      (* Fullmove number *)
      let fm :=
        match color with
        | BLACK => fullmove_number b + 1
        | WHITE => fullmove_number b
        end in
      Ok (mkBoard s5 (other color) r3 new_ep hm fm
            (mkUndo move captured ep_captured (castling_rights b)
               (ep_square b) (halfmove_clock b) (fullmove_number b)
             :: _history b))
  end.

(** Truth value of [move.promotion]: [None] and [PieceType.PAWN] (the
    [IntEnum] member 0) are false. *)
Definition promotion_truthy (p : option PieceType) : bool :=
  match p with
  | None => false
  | Some pt => negb (PieceType_int pt =? 0)
  end.

(** [Board.undo_move]. *)
Definition undo_move (b : Board) : res Board :=
  match _history b with
  | [] => Ok b
  | undo :: rest =>
      let move := u_move undo in
      (* Switch turn back *)
      let color := other (turn b) in
      (* Restore the moving piece (un-promote if needed) *)
      piece_at_dest <- getitem (squares b) (to_sq move) ;;
      let moving_piece :=
        if promotion_truthy (promotion move) then Some (color, PAWN)
        else piece_at_dest in
      s1 <- setitem (squares b) (from_sq move) moving_piece ;;
      s2 <- setitem s1 (to_sq move) (u_captured undo) ;;
      (* Restore en-passant captured pawn *)
      s3 <- (if is_en_passant move then
               match u_ep_captured undo with
               | Some (ep_sq, ep_piece) => setitem s2 ep_sq ep_piece
               | None => Ok s2
               end
             else Ok s2) ;;
      (* Restore rook if castling *)
      s4 <- (if is_castle move then uncastle_rook s3 (to_sq move) else Ok s3) ;;
      (* Restore game state fields *)
      Ok (mkBoard s4 color (u_castling_rights undo) (u_ep_square undo)
            (u_halfmove_clock undo) (u_fullmove_number undo) rest)
  end.

(** A read guarded by the caller's own bounds test
    ([0 <= r <= 7 and 0 <= c <= 7], or a literal square): on a 64-cell board
    such a read never leaves the list, and an index outside it is answered
    with the empty cell here. *)
Definition piece_at (b : Board) (square : Z) : option Piece :=
  if (0 <=? square) && (square <? 64)
  then default None (squares b !! Z.to_nat square)
  else None.

Fixpoint find_king_from (sqs : list (option Piece)) (s : Z) (color : Color)
  : option Z :=
  match sqs with
  | [] => None
  | p :: rest =>
      match p with
      | Some (c, KING) =>
          if Color_eqb c color then Some s
          else find_king_from rest (s + 1) color
      | _ => find_king_from rest (s + 1) color
      end
  end.

(** [Board.find_king]: the first king of [color] in square order, over
    the 64 squares of [range(64)]. *)
Definition find_king (b : Board) (color : Color) : option Z :=
  find_king_from (firstn 64 (squares b)) 0 color.

(* ===================================================================== *)
(** ** engine/move_generator.py *)
(* ===================================================================== *)

Definition _DIAG : list (Z * Z) := [(1, 1); (1, -1); (-1, 1); (-1, -1)].
Definition _ORTH : list (Z * Z) := [(1, 0); (-1, 0); (0, 1); (0, -1)].
Definition _KNIGHT_DELTAS : list (Z * Z) :=
  [(-2, -1); (-2, 1); (-1, -2); (-1, 2); (1, -2); (1, 2); (2, -1); (2, 1)].
Definition _KING_DELTAS : list (Z * Z) :=
  [(-1, -1); (-1, 0); (-1, 1); (0, -1); (0, 1); (1, -1); (1, 0); (1, 1)].

(** [0 <= x <= 7] and [0 <= r <= 7 and 0 <= c <= 7]. *)
Definition in07 (x : Z) : bool := (0 <=? x) && (x <=? 7).
Definition on_board (r c : Z) : bool := in07 r && in07 c.

(** [range(64)]. *)
Definition range64 : list Z := Z.of_nat <$> seq 0 64.

(** [t is not None and t[0] != color]. *)
Definition is_enemy (color : Color) (t : option Piece) : bool :=
  match t with
  | Some (c, _) => negb (Color_eqb c color)
  | None => false
  end.

(** [t is None or t[0] != color]. *)
Definition free_or_enemy (color : Color) (t : option Piece) : bool :=
  match t with
  | Some (c, _) => negb (Color_eqb c color)
  | None => true
  end.

Definition _PROMOTIONS : list PieceType := [QUEEN; ROOK; BISHOP; KNIGHT].

Definition _pawn_moves (b : Board) (s : Z) (color : Color) : list Move :=
  let '(row, col) := row_col s in
  let direction := match color with WHITE => -1 | BLACK => 1 end in
  let start_row := match color with WHITE => 6 | BLACK => 1 end in
  let promo_row := match color with WHITE => 0 | BLACK => 7 end in
  let nr := row + direction in
  if in07 nr then
    let fwd := sq nr col in
    (* Single push *)
    (match piece_at b fwd with
     | None =>
         if nr =? promo_row then Move_promo s fwd <$> _PROMOTIONS
         else
           Move_plain s fwd ::
           (* Double push *)
           (if row =? start_row then
              let dbl := sq (row + 2 * direction) col in
              match piece_at b dbl with
              | None => [Move_plain s dbl]
              | Some _ => []
              end
            else [])
     | Some _ => []
     end)
    (* Captures *)
    ++ flat_map
         (fun dc =>
            let nc := col + dc in
            if in07 nc then
              let cap_sq := sq nr nc in
              let target := piece_at b cap_sq in
              if is_enemy color target then
                if nr =? promo_row then Move_promo s cap_sq <$> _PROMOTIONS
                else [Move_plain s cap_sq]
              else if bool_decide (ep_square b = Some cap_sq)
                   then [Move_ep s cap_sq]
                   else []
            else [])
         [-1; 1]
  else [].

(** The common body of [_knight_moves] and [_king_moves]. *)
Definition delta_moves (deltas : list (Z * Z)) (b : Board) (s : Z)
    (color : Color) : list Move :=
  let '(row, col) := row_col s in
  flat_map
    (fun d : Z * Z =>
       let nr := row + d.1 in
       let nc := col + d.2 in
       if on_board nr nc then
         let ts := sq nr nc in
         if free_or_enemy color (piece_at b ts) then [Move_plain s ts] else []
       else [])
    deltas.

Definition _knight_moves : Board -> Z -> Color -> list Move :=
  delta_moves _KNIGHT_DELTAS.
Definition _king_moves : Board -> Z -> Color -> list Move :=
  delta_moves _KING_DELTAS.

(** One direction of [_sliding]: the [while] loop from [(r, c)].  [fuel]
    bounds the number of loop tests; [slide_fuel_enough] shows that 8 is
    never exhausted on the board. *)
Fixpoint slide (fuel : nat) (b : Board) (s : Z) (color : Color)
    (dr dc r c : Z) : list Move :=
  match fuel with
  | O => []
  | S fuel' =>
      if on_board r c then
        let ts := sq r c in
        match piece_at b ts with
        | None => Move_plain s ts :: slide fuel' b s color dr dc (r + dr) (c + dc)
        | Some (tc, _) =>
            if negb (Color_eqb tc color) then [Move_plain s ts] else []
        end
      else []
  end.

Definition _sliding (b : Board) (s : Z) (color : Color)
    (directions : list (Z * Z)) : list Move :=
  let '(row, col) := row_col s in
  flat_map
    (fun d : Z * Z => slide 8 b s color d.1 d.2 (row + d.1) (col + d.2))
    directions.

(** The body of the [for s in range(64)] loop of [_pseudo_legal]. *)
Definition moves_from (b : Board) (color : Color) (s : Z) : list Move :=
  match piece_at b s with
  | None => []
  | Some (c, pt) =>
      if negb (Color_eqb c color) then []
      else
        match pt with
        | PAWN => _pawn_moves b s color
        | KNIGHT => _knight_moves b s color
        | BISHOP => _sliding b s color _DIAG
        | ROOK => _sliding b s color _ORTH
        | QUEEN => _sliding b s color (_DIAG ++ _ORTH)
        | KING => _king_moves b s color
        end
  end.

Definition _pseudo_legal (b : Board) (color : Color) : list Move :=
  flat_map (moves_from b color) range64.

(** [p and p[0] == by_color and p[1] in kinds]. *)
Definition is_piece (b : Board) (square : Z) (by_color : Color)
    (kinds : list PieceType) : bool :=
  match piece_at b square with
  | Some (c, pt) => Color_eqb c by_color && existsb (PieceType_eqb pt) kinds
  | None => false
  end.

(** One slider ray of [_is_attacked]: stop at the first occupied cell. *)
Fixpoint ray_attacked (fuel : nat) (b : Board) (by_color : Color)
    (kinds : list PieceType) (dr dc r c : Z) : bool :=
  match fuel with
  | O => false
  | S fuel' =>
      if on_board r c then
        match piece_at b (sq r c) with
        | Some (pc, pt) =>
            Color_eqb pc by_color && existsb (PieceType_eqb pt) kinds
        | None => ray_attacked fuel' b by_color kinds dr dc (r + dr) (c + dc)
        end
      else false
  end.

Definition _is_attacked (b : Board) (square : Z) (by_color : Color) : bool :=
  let '(row, col) := row_col square in
  (* Pawn attacks *)
  let pawn_from_row :=
    row + (match by_color with WHITE => 1 | BLACK => -1 end) in
  (in07 pawn_from_row
   && existsb
        (fun dc =>
           let pc := col + dc in
           in07 pc && is_piece b (sq pawn_from_row pc) by_color [PAWN])
        [-1; 1])
  (* Knight attacks *)
  || existsb
       (fun d : Z * Z =>
          let nr := row + d.1 in
          let nc := col + d.2 in
          on_board nr nc && is_piece b (sq nr nc) by_color [KNIGHT])
       _KNIGHT_DELTAS
  (* Orthogonal sliders (rook, queen) *)
  || existsb
       (fun d : Z * Z =>
          ray_attacked 8 b by_color [ROOK; QUEEN] d.1 d.2 (row + d.1) (col + d.2))
       _ORTH
  (* Diagonal sliders (bishop, queen) *)
  || existsb
       (fun d : Z * Z =>
          ray_attacked 8 b by_color [BISHOP; QUEEN] d.1 d.2 (row + d.1) (col + d.2))
       _DIAG
  (* King attacks *)
  || existsb
       (fun d : Z * Z =>
          let nr := row + d.1 in
          let nc := col + d.2 in
          on_board nr nc && is_piece b (sq nr nc) by_color [KING])
       _KING_DELTAS.

Definition is_empty (b : Board) (square : Z) : bool :=
  bool_decide (piece_at b square = None).

Definition _castling_moves (b : Board) (color : Color) : list Move :=
  let opponent := other color in
  match color with
  | WHITE =>
      let king_sq := sq 7 4 in
      if negb (bool_decide (piece_at b king_sq = Some (WHITE, KING))) then []
      else
        (* Kingside *)
        (if wK (castling_rights b)
            && bool_decide (piece_at b (sq 7 7) = Some (WHITE, ROOK))
            && is_empty b (sq 7 5)
            && is_empty b (sq 7 6)
            && negb (_is_attacked b (sq 7 4) opponent)
            && negb (_is_attacked b (sq 7 5) opponent)
            && negb (_is_attacked b (sq 7 6) opponent)
         then [Move_castle king_sq (sq 7 6)] else [])
        (* Queenside *)
        ++ (if wQ (castling_rights b)
               && bool_decide (piece_at b (sq 7 0) = Some (WHITE, ROOK))
               && is_empty b (sq 7 3)
               && is_empty b (sq 7 2)
               && is_empty b (sq 7 1)
               && negb (_is_attacked b (sq 7 4) opponent)
               && negb (_is_attacked b (sq 7 3) opponent)
               && negb (_is_attacked b (sq 7 2) opponent)
            then [Move_castle king_sq (sq 7 2)] else [])
  | BLACK =>
      let king_sq := sq 0 4 in
      if negb (bool_decide (piece_at b king_sq = Some (BLACK, KING))) then []
      else
        (* Kingside *)
        (if bk (castling_rights b)
            && bool_decide (piece_at b (sq 0 7) = Some (BLACK, ROOK))
            && is_empty b (sq 0 5)
            && is_empty b (sq 0 6)
            && negb (_is_attacked b (sq 0 4) opponent)
            && negb (_is_attacked b (sq 0 5) opponent)
            && negb (_is_attacked b (sq 0 6) opponent)
         then [Move_castle king_sq (sq 0 6)] else [])
        (* Queenside *)
        ++ (if bq (castling_rights b)
               && bool_decide (piece_at b (sq 0 0) = Some (BLACK, ROOK))
               && is_empty b (sq 0 3)
               && is_empty b (sq 0 2)
               && is_empty b (sq 0 1)
               && negb (_is_attacked b (sq 0 4) opponent)
               && negb (_is_attacked b (sq 0 3) opponent)
               && negb (_is_attacked b (sq 0 2) opponent)
            then [Move_castle king_sq (sq 0 2)] else [])
  end.

(** The filtering loop of [generate_legal_moves].  The board object is
    shared and mutated by every [make_move] and [undo_move], so it is
    threaded through the loop and returned with the list.
    [_is_attacked(board, None, ..)] fails in [row_col] with a [TypeError]. *)
Fixpoint legal_filter (b : Board) (color : Color) (pseudo : list Move)
  : res (list Move * Board) :=
  match pseudo with
  | [] => Ok ([], b)
  | move :: rest =>
      b1 <- make_move b move ;;
      match find_king b1 color with
      | None => Raise TypeError
      | Some king_sq =>
          let attacked := _is_attacked b1 king_sq (other color) in
          b2 <- undo_move b1 ;;
          r <- legal_filter b2 color rest ;;
          Ok (if attacked then r.1 else move :: r.1, r.2)
      end
  end.

Definition generate_legal_moves (b : Board) : res (list Move * Board) :=
  let color := turn b in
  let pseudo := _pseudo_legal b color ++ _castling_moves b color in
  legal_filter b color pseudo.

Definition is_in_check (b : Board) (color : Color) : bool :=
  match find_king b color with
  | None => false
  | Some king_sq => _is_attacked b king_sq (other color)
  end.

Definition start_board : Board := setup_start_position Board_init.

(* ===================================================================== *)
(** ** engine/zobrist.py *)
(* ===================================================================== *)

(** The tables are filled from [random.Random(seed).getrandbits(64)], whose
    numbers are not part of the sources: they are the fields of this record,
    with the shapes the constructor gives them (2 x 6 x 64, 4 and 8
    entries). *)
Record ZobristHasher : Type := mkHasher {
  piece_table : list (list (list Z));
  black_to_move : Z;
  castling : list Z;
  ep_file : list Z
}.

(** A read of a table at an index that [hash_board] keeps inside it
    ([int(color)], [int(pt)], a square of [range(64)], [enumerate] over the
    four rights, [ep_square % 8]). *)
Definition entry (table : list Z) (i : Z) : Z :=
  default 0 (table !! Z.to_nat i).

Definition piece_entry (z : ZobristHasher) (color : Color) (pt : PieceType)
    (s : Z) : Z :=
  entry
    (default []
       (default [] (piece_table z !! Z.to_nat (Color_int color))
          !! Z.to_nat (PieceType_int pt)))
    s.

Definition hash_board (z : ZobristHasher) (b : Board) : Z :=
  let h :=
    fold_left
      (fun h s =>
         match piece_at b s with
         | Some (color, pt) => Z.lxor h (piece_entry z color pt s)
         | None => h
         end)
      range64 0 in
  let h := if Color_eqb (turn b) BLACK then Z.lxor h (black_to_move z) else h in
  let h :=
    fold_left
      (fun h (ik : Z * bool) => if ik.2 then Z.lxor h (entry (castling z) ik.1) else h)
      [(0, wK (castling_rights b)); (1, wQ (castling_rights b));
       (2, bk (castling_rights b)); (3, bq (castling_rights b))]
      h in
  match ep_square b with
  | Some e => Z.lxor h (entry (ep_file z) (e mod 8))
  | None => h
  end.

(* ===================================================================== *)
(** ** engine/game.py *)
(* ===================================================================== *)

Inductive GameResult : Type := ONGOING | WHITE_WINS | BLACK_WINS | DRAW.
Inductive DrawReason : Type := STALEMATE | FIFTY_MOVE | THREEFOLD | INSUFFICIENT.

#[export] Instance GameResult_eq_dec : EqDecision GameResult.
Proof. solve_decision. Defined.
#[export] Instance DrawReason_eq_dec : EqDecision DrawReason.
Proof. solve_decision. Defined.

Record GameState : Type := mkGame {
  board : Board;
  _hasher : ZobristHasher;
  _position_counts : gmap Z Z;
  _move_history : list Move;
  _cached_legal : option (list Move);
  result : GameResult;
  draw_reason : option DrawReason;
  resignation : option Color
}.

Definition set_board (gs : GameState) (b : Board) : GameState :=
  mkGame b (_hasher gs) (_position_counts gs) (_move_history gs)
    (_cached_legal gs) (result gs) (draw_reason gs) (resignation gs).

Definition set_cached (gs : GameState) (c : option (list Move)) : GameState :=
  mkGame (board gs) (_hasher gs) (_position_counts gs) (_move_history gs)
    c (result gs) (draw_reason gs) (resignation gs).

Definition set_result (gs : GameState) (r : GameResult) : GameState :=
  mkGame (board gs) (_hasher gs) (_position_counts gs) (_move_history gs)
    (_cached_legal gs) r (draw_reason gs) (resignation gs).

Definition set_draw (gs : GameState) (reason : DrawReason) : GameState :=
  mkGame (board gs) (_hasher gs) (_position_counts gs) (_move_history gs)
    (_cached_legal gs) DRAW (Some reason) (resignation gs).

(** [self._position_counts.get(h, 0)]. *)
Definition count_of (gs : GameState) (h : Z) : Z :=
  default 0 (_position_counts gs !! h).

Definition _record_position (gs : GameState) : GameState :=
  let h := hash_board (_hasher gs) (board gs) in
  mkGame (board gs) (_hasher gs) (<[h := count_of gs h + 1]> (_position_counts gs))
    (_move_history gs) (_cached_legal gs) (result gs) (draw_reason gs)
    (resignation gs).

Definition _unrecord_position (gs : GameState) : GameState :=
  let h := hash_board (_hasher gs) (board gs) in
  let count := count_of gs h in
  mkGame (board gs) (_hasher gs)
    (if count <=? 1 then delete h (_position_counts gs)
     else <[h := count - 1]> (_position_counts gs))
    (_move_history gs) (_cached_legal gs) (result gs) (draw_reason gs)
    (resignation gs).

(** [GameState.__init__], given the hasher it builds. *)
Definition GameState_init (z : ZobristHasher) : GameState :=
  _record_position (mkGame start_board z ∅ [] None ONGOING None None).

(** The [legal_moves] property.  Reading it with an absent cache runs the
    generator on the shared board and stores the list. *)
Definition legal_moves (gs : GameState) : res (list Move * GameState) :=
  match _cached_legal gs with
  | Some cached => Ok (cached, gs)
  | None =>
      r <- generate_legal_moves (board gs) ;;
      Ok (r.1, set_cached (set_board gs r.2) (Some r.1))
  end.

(** The list comprehension at the head of [_is_insufficient_material]. *)
Definition pieces_of (b : Board) : list (Z * Color * PieceType) :=
  flat_map
    (fun s =>
       match piece_at b s with
       | Some (c, pt) => [(s, c, pt)]
       | None => []
       end)
    range64.

Definition is_minor (pt : PieceType) : bool :=
  PieceType_eqb pt BISHOP || PieceType_eqb pt KNIGHT.

Definition square_shade (s : Z) : Z := (s / 8 + s mod 8) mod 2.

Definition bishops_of (pieces : list (Z * Color * PieceType))
  : list (Z * Color) :=
  flat_map
    (fun p : Z * Color * PieceType =>
       if PieceType_eqb p.2 BISHOP then [p.1] else [])
    pieces.

Definition _is_insufficient_material (gs : GameState) : bool :=
  let pieces := pieces_of (board gs) in
  if (length pieces =? 2)%nat then true (* Only kings *)
  else if (length pieces =? 3)%nat
          && existsb (fun p : Z * Color * PieceType => is_minor p.2) pieces
  then true
  else if (length pieces =? 4)%nat then
    match bishops_of pieces with
    | [(s1, c1); (s2, c2)] =>
        negb (Color_eqb c1 c2) && (square_shade s1 =? square_shade s2)
    | _ => false
    end
  else false.

Definition _update_result (gs : GameState) : res GameState :=
  r <- legal_moves gs ;;
  let legal := r.1 in
  let gs := r.2 in
  let current := turn (board gs) in
  match legal with
  | [] =>
      if is_in_check (board gs) current then
        (* Checkmate: the side that just moved wins *)
        Ok (set_result gs
              (match current with WHITE => BLACK_WINS | BLACK => WHITE_WINS end))
      else Ok (set_draw gs STALEMATE)
  | _ :: _ =>
      if 100 <=? halfmove_clock (board gs) then Ok (set_draw gs FIFTY_MOVE)
      else
        let h := hash_board (_hasher gs) (board gs) in
        if 3 <=? count_of gs h then Ok (set_draw gs THREEFOLD)
        else if _is_insufficient_material gs then Ok (set_draw gs INSUFFICIENT)
        else Ok gs
  end.

(** [GameState.make_move]: the returned flag and the state left behind. *)
Definition GameState_make_move (gs : GameState) (move : Move)
  : res (bool * GameState) :=
  if negb (bool_decide (result gs = ONGOING)) then Ok (false, gs)
  else
    r <- legal_moves gs ;;
    let gs := r.2 in
    if negb (Move_in move r.1) then Ok (false, gs)
    else
      b <- make_move (board gs) move ;;
      let gs :=
        mkGame b (_hasher gs) (_position_counts gs) (_move_history gs ++ [move])
          None (result gs) (draw_reason gs) (resignation gs) in
      gs <- _update_result (_record_position gs) ;;
      Ok (true, gs).

Definition resign (gs : GameState) (color : Color) : GameState :=
  if negb (bool_decide (result gs = ONGOING)) then gs
  else
    mkGame (board gs) (_hasher gs) (_position_counts gs) (_move_history gs)
      (_cached_legal gs)
      (match color with WHITE => BLACK_WINS | BLACK => WHITE_WINS end)
      (draw_reason gs) (Some color).

(* ===================================================================== *)
(** ** evaluators/base.py and evaluators/material.py *)
(* ===================================================================== *)

Definition STANDARD_VALUES (pt : PieceType) : Z :=
  match pt with
  | PAWN => 100 | KNIGHT => 320 | BISHOP => 330
  | ROOK => 500 | QUEEN => 900 | KING => 20000
  end.

(** [EvaluatorBase.piece_value], which [SimpleMaterialEvaluator] inherits. *)
Definition piece_value (pt : PieceType) : Z := STANDARD_VALUES pt.

(** [SimpleMaterialEvaluator.evaluate]. *)
Definition material_evaluate (gs : GameState) : res Z :=
  Ok (fold_left
        (fun score s =>
           match piece_at (board gs) s with
           | Some (color, pt) =>
               let val := piece_value pt in
               score + (match color with WHITE => val | BLACK => - val end)
           | None => score
           end)
        range64 0).

(* ===================================================================== *)
(** ** search/minimax.py *)
(* ===================================================================== *)

Definition _INF : Z := 100000000.

Definition _PIECE_SORT_VALUE (pt : PieceType) : Z :=
  match pt with
  | PAWN => 1 | KNIGHT => 3 | BISHOP => 3 | ROOK => 5 | QUEEN => 9 | KING => 100
  end.

(** The key [_score] of [_order_moves]; the moves it is given come from the
    generator, so both squares are on the board. *)
Definition _score (gs : GameState) (move : Move) : Z :=
  match piece_at (board gs) (to_sq move) with
  | Some (_, victim) =>
      let victim_value := _PIECE_SORT_VALUE victim in
      let attacker_value :=
        match piece_at (board gs) (from_sq move) with
        | Some (_, attacker) => _PIECE_SORT_VALUE attacker
        | None => 0
        end in
      - (victim_value * 10 - attacker_value)
  | None => 0
  end.

(** [list.sort(key=..)] is stable: equal keys keep their order. *)
Fixpoint insert_by_key (key : Move -> Z) (x : Move) (l : list Move)
  : list Move :=
  match l with
  | [] => [x]
  | y :: ys =>
      if key x <=? key y then x :: y :: ys
      else y :: insert_by_key key x ys
  end.

Definition _order_moves (gs : GameState) (moves : list Move) : list Move :=
  foldr (insert_by_key (_score gs)) [] moves.

(** [MinimaxSearcher._search].  [depth] counts down to the [depth == 0]
    test, so it is a [nat] here; the game state (whose board is mutated in
    place) and the node counter are threaded through and returned with the
    score. *)
Fixpoint _search (evaluate : GameState -> res Z) (depth : nat)
    (gs : GameState) (nodes : Z) (alpha beta : Z) (maximizing : bool)
  : res (Z * GameState * Z) :=
  let nodes := nodes + 1 in
  r <- generate_legal_moves (board gs) ;;
  let legal := r.1 in
  let gs := set_board gs r.2 in
  let current := turn (board gs) in
  match legal with
  | [] =>
      if is_in_check (board gs) current then
        (* Checkmate: the caller (opponent) wins *)
        Ok (if maximizing then _INF else - _INF, gs, nodes)
      else Ok (0, gs, nodes) (* Stalemate *)
  | _ :: _ =>
      match depth with
      | O => v <- evaluate gs ;; Ok (v, gs, nodes)
      | S depth' =>
          let ordered := _order_moves gs legal in
          if maximizing then
            (fix loop (moves : list Move) (value alpha : Z) (gs : GameState)
                 (nodes : Z) {struct moves} : res (Z * GameState * Z) :=
               match moves with
               | [] => Ok (value, gs, nodes)
               | move :: rest =>
                   b1 <- make_move (board gs) move ;;
                   r <- _search evaluate depth' (set_board gs b1) nodes
                          alpha beta false ;;
                   let value := Z.max value r.1.1 in
                   b2 <- undo_move (board r.1.2) ;;
                   let gs := set_board r.1.2 b2 in
                   let alpha := Z.max alpha value in
                   if beta <=? alpha then Ok (value, gs, r.2)
                   else loop rest value alpha gs r.2
               end) ordered (- _INF) alpha gs nodes
          else
            (fix loop (moves : list Move) (value beta : Z) (gs : GameState)
                 (nodes : Z) {struct moves} : res (Z * GameState * Z) :=
               match moves with
               | [] => Ok (value, gs, nodes)
               | move :: rest =>
                   b1 <- make_move (board gs) move ;;
                   r <- _search evaluate depth' (set_board gs b1) nodes
                          alpha beta true ;;
                   let value := Z.min value r.1.1 in
                   b2 <- undo_move (board r.1.2) ;;
                   let gs := set_board r.1.2 b2 in
                   let beta := Z.min beta value in
                   if beta <=? alpha then Ok (value, gs, r.2)
                   else loop rest value beta gs r.2
               end) ordered _INF beta gs nodes
      end
  end.

Record MinimaxSearcher : Type := mkSearcher {
  evaluator : GameState -> res Z;
  depth : Z;
  nodes_searched : Z
}.

(** The root loop of [best_move]. *)
Fixpoint best_move_loop (evaluate : GameState -> res Z) (depth : nat)
    (maximizing : bool) (moves : list Move) (best : option Move)
    (best_score alpha beta : Z) (gs : GameState) (nodes : Z)
  : res (option Move * GameState * Z) :=
  match moves with
  | [] => Ok (best, gs, nodes)
  | move :: rest =>
      b1 <- make_move (board gs) move ;;
      r <- _search evaluate depth (set_board gs b1) nodes alpha beta
             (negb maximizing) ;;
      let score := r.1.1 in
      b2 <- undo_move (board r.1.2) ;;
      let gs := set_board r.1.2 b2 in
      if maximizing then
        let improved := best_score <? score in
        best_move_loop evaluate depth maximizing rest
          (if improved then Some move else best)
          (if improved then score else best_score)
          (Z.max alpha score) beta gs r.2
      else
        let improved := score <? best_score in
        best_move_loop evaluate depth maximizing rest
          (if improved then Some move else best)
          (if improved then score else best_score)
          alpha (Z.min beta score) gs r.2
  end.

(** [MinimaxSearcher.best_move]: the move (or [None]), the game state and
    the searcher with its node count.  With [depth < 1] the recursion would
    start below the [depth == 0] test and never meet it; that run is outside
    this model and reported as [RecursionError]. *)
Definition best_move (self : MinimaxSearcher) (gs : GameState)
  : res (option Move * GameState * MinimaxSearcher) :=
  let color := turn (board gs) in
  let maximizing := Color_eqb color WHITE in
  r <- generate_legal_moves (board gs) ;;
  let gs := set_board gs r.2 in
  match r.1 with
  | [] => Ok (None, gs, mkSearcher (evaluator self) (depth self) 0)
  | _ :: _ =>
      if depth self <? 1 then Raise RecursionError
      else
        let ordered := _order_moves gs r.1 in
        out <- best_move_loop (evaluator self) (Z.to_nat (depth self - 1))
                 maximizing ordered None
                 (if maximizing then - _INF else _INF) (- _INF) _INF gs 0 ;;
        Ok (out.1.1, out.1.2, mkSearcher (evaluator self) (depth self) out.2)
  end.

(* ===================================================================== *)
(** ** engine/move.py: the coordinate text codec *)
(* ===================================================================== *)

(** Strings are ASCII text: [ord] is the character code, and [int] and
    [str.upper] are given on the characters below 128. *)

(** [s[i]]. *)
Definition str_get (s : string) (i : nat) : res ascii :=
  match String.get i s with
  | Some c => Ok c
  | None => Raise IndexError
  end.

Definition ord (c : ascii) : Z := Z.of_nat (nat_of_ascii c).

(** [int(c)] for a one-character string. *)
Definition int_of_char (c : ascii) : res Z :=
  if (48 <=? ord c) && (ord c <=? 57) then Ok (ord c - 48)
  else Raise ValueError.

Definition square_from_name (name : string) : res Z :=
  c0 <- str_get name 0 ;;
  let col := ord c0 - ord "a" in
  c1 <- str_get name 1 ;;
  d <- int_of_char c1 ;;
  let row := 8 - d in
  Ok (sq row col).

(** [_LETTER_PROMO.get(c)]. *)
Definition _LETTER_PROMO (c : ascii) : option PieceType :=
  if Ascii.eqb c "q" then Some QUEEN
  else if Ascii.eqb c "r" then Some ROOK
  else if Ascii.eqb c "b" then Some BISHOP
  else if Ascii.eqb c "n" then Some KNIGHT
  else None.

Definition from_uci (uci : string) : res Move :=
  from <- square_from_name (substring 0 2 uci) ;;
  to <- square_from_name (substring 2 2 uci) ;;
  promo <- (if (String.length uci =? 5)%nat
            then c <- str_get uci 4 ;; Ok (_LETTER_PROMO c)
            else Ok None) ;;
  Ok (mkMove from to promo false false).

(* ===================================================================== *)
(** ** api/session.py: GameSession.make_move *)
(* ===================================================================== *)

Definition upper_char (c : ascii) : ascii :=
  if (97 <=? ord c) && (ord c <=? 122)
  then ascii_of_nat (nat_of_ascii c - 32)
  else c.

(** [str.upper] on ASCII text. *)
Fixpoint upper (s : string) : string :=
  match s with
  | EmptyString => EmptyString
  | String c rest => String (upper_char c) (upper rest)
  end.

(** [promo_map.get(key)]. *)
Definition promo_map (key : string) : option PieceType :=
  if String.eqb key "QUEEN" then Some QUEEN
  else if String.eqb key "ROOK" then Some ROOK
  else if String.eqb key "BISHOP" then Some BISHOP
  else if String.eqb key "KNIGHT" then Some KNIGHT
  else None.

(** The resolution of the [promotion] argument: [None] and the empty
    string are false in [if promotion:]. *)
Definition resolve_promotion (promotion : option string) : option PieceType :=
  match promotion with
  | None => None
  | Some EmptyString => None
  | Some p => promo_map (upper p)
  end.

(** The [for lm in self.game.legal_moves] search, ended by [break]. *)
Definition find_match (from to : Z) (promo_pt : option PieceType)
    (legal : list Move) : option Move :=
  List.find
    (fun lm =>
       (from_sq lm =? from) && (to_sq lm =? to)
       && bool_decide (promotion lm = promo_pt))
    legal.

(** [GameSession.make_move] on the session's [game]: the pair
    [(ok, error_message)] and the game left behind. *)
Definition GameSession_make_move (game : GameState) (from to : Z)
    (promotion : option string) : res (bool * string * GameState) :=
  let promo_pt := resolve_promotion promotion in
  r <- legal_moves game ;;
  match find_match from to promo_pt r.1 with
  | None => Ok (false, "Illegal move"%string, r.2)
  | Some matched =>
      out <- GameState_make_move r.2 matched ;;
      Ok (out.1, EmptyString, out.2)
  end.

(* ===================================================================== *)
(** * Specification vocabulary *)
(* ===================================================================== *)

(** The data-model invariant: exactly 64 squares. *)
Definition wf_board (b : Board) : Prop := length (squares b) = 64%nat.

(** The cell of a 64-cell list at an index known to be on the board. *)
Definition cell (l : list (option Piece)) (i : Z) : option Piece :=
  default None (l !! Z.to_nat i).

Definition onb (s : Z) : Prop := 0 <= s < 64.

(** The square [make_move] clears for an en-passant capture landing on
    [t]. *)
Definition ep_victim (color : Color) (t : Z) : Z :=
  (t / 8 + (match color with WHITE => 1 | BLACK => -1 end)) * 8 + t mod 8.

(** King source, king destination, rook source, rook destination of the
    four castling moves. *)
Inductive castle_shape : Z -> Z -> Z -> Z -> Prop :=
| shape_K : castle_shape 60 62 63 61
| shape_Q : castle_shape 60 58 56 59
| shape_k : castle_shape 4 6 7 5
| shape_q : castle_shape 4 2 0 3.

(** The shapes of the moves the generator builds on board [b]. *)
Inductive move_ok (b : Board) : Move -> Prop :=
| ok_plain f t pt :
    onb f -> onb t -> f <> t -> piece_at b f = Some (turn b, pt) ->
    move_ok b (Move_plain f t)
| ok_promo f t p :
    onb f -> onb t -> f <> t -> piece_at b f = Some (turn b, PAWN) ->
    p <> PAWN -> move_ok b (Move_promo f t p)
| ok_ep f t pt :
    onb f -> onb t -> f <> t -> piece_at b f = Some (turn b, pt) ->
    onb (ep_victim (turn b) t) -> ep_victim (turn b) t <> f ->
    ep_victim (turn b) t <> t ->
    move_ok b (Move_ep f t)
| ok_castle f t r r' pt :
    castle_shape f t r r' -> piece_at b f = Some (turn b, pt) ->
    piece_at b r = Some (turn b, ROOK) ->
    piece_at b r' = None ->
    move_ok b (Move_castle f t).

(** The test of the filtering loop on one move, from an unchanged board. *)
Definition king_safe_after (b : Board) (color : Color) (m : Move) : bool :=
  match make_move b m with
  | Ok b1 =>
      match find_king b1 color with
      | Some k => negb (_is_attacked b1 k (other color))
      | None => false
      end
  | Raise _ => false
  end.

(** ** Reading results *)

Definition res_map {A B : Type} (f : A -> B) (r : res A) : res B :=
  match r with
  | Ok a => Ok (f a)
  | Raise e => Raise e
  end.

(** The score returned by [_search], the move returned by [best_move] and
    the list returned by [generate_legal_moves]. *)
Definition score_of (r : res (Z * GameState * Z)) : res Z :=
  res_map (fun x => x.1.1) r.

Definition chosen_move (r : res (option Move * GameState * MinimaxSearcher))
  : res (option Move) :=
  res_map (fun x => x.1.1) r.

Definition legal_list (r : res (list Move * Board)) : res (list Move) :=
  res_map fst r.

(** ** Sample data for the closed examples *)

(** A stand-in for the random 64-bit table entries. *)
Definition sample_value (i : Z) : Z :=
  (i * 6364136223846793005 + 1442695040888963407) mod 2 ^ 64.

Definition sample_hasher : ZobristHasher :=
  Eval vm_compute in
    mkHasher
      ((fun c =>
          (fun p => (fun s => sample_value ((c * 6 + p) * 64 + s)) <$> range64)
            <$> [0; 1; 2; 3; 4; 5])
         <$> [0; 1])
      (sample_value 768)
      ((fun i => sample_value (769 + i)) <$> [0; 1; 2; 3])
      ((fun f => sample_value (773 + f)) <$> [0; 1; 2; 3; 4; 5; 6; 7]).

(** [GameState()]. *)
Definition new_game : GameState := GameState_init sample_hasher.

(** A board holding the listed pieces, as the tests build them. *)
Definition place (pieces : list (Z * Piece)) : list (option Piece) :=
  fold_left (fun l (sp : Z * Piece) => <[Z.to_nat sp.1 := Some sp.2]> l)
    pieces (replicate 64 None).

(** A game on a hand-built position, as [_bare_game] of the tests makes
    it: no castling rights unless given, counters reset, position recorded. *)
Definition bare_game (pieces : list (Z * Piece)) (to_move : Color)
    (rights : CastlingRights) (ep : option Z) : GameState :=
  _record_position
    (mkGame (mkBoard (place pieces) to_move rights ep 0 1 [])
       sample_hasher ∅ [] None ONGOING None None).

(** ** Committed play *)

(** The state a committed [make_move] hands to [_update_result]: the move
    applied, appended to the history, the cache dropped and the new
    position recorded. *)
Definition after_commit (gs : GameState) (move : Move) (b1 : Board)
  : GameState :=
  _record_position
    (mkGame b1 (_hasher gs) (_position_counts gs) (_move_history gs ++ [move])
       None (result gs) (draw_reason gs) (resignation gs)).

(** The verdict of [_update_result] once the legal-move list is known. *)
Definition verdict (gs : GameState) (legal : list Move) : GameState :=
  let gs := set_cached gs (Some legal) in
  match legal with
  | [] =>
      if is_in_check (board gs) (turn (board gs)) then
        set_result gs
          (match turn (board gs) with
           | WHITE => BLACK_WINS | BLACK => WHITE_WINS end)
      else set_draw gs STALEMATE
  | _ :: _ =>
      if 100 <=? halfmove_clock (board gs) then set_draw gs FIFTY_MOVE
      else if 3 <=? count_of gs (hash_board (_hasher gs) (board gs))
      then set_draw gs THREEFOLD
      else if _is_insufficient_material gs then set_draw gs INSUFFICIENT
      else gs
  end.

(** [committed z hs gs]: [gs] is reached from [GameState()] (built with
    hasher [z]) by committed moves, and [hs] lists the hashes of the
    positions recorded on the way, newest first, the initial position
    last. *)
Inductive committed (z : ZobristHasher) : list Z -> GameState -> Prop :=
| committed_init :
    committed z [hash_board z start_board] (GameState_init z)
| committed_move hs gs move gs' :
    committed z hs gs ->
    GameState_make_move gs move = Ok (true, gs') ->
    committed z (hash_board z (board gs') :: hs) gs'.

(** ** Material configurations *)

Definition is_king_piece (p : Z * Color * PieceType) : bool :=
  PieceType_eqb p.2 KING.

(** The kings of one colour on the board. *)
Definition kings_of (b : Board) (c : Color) : list (Z * Color * PieceType) :=
  List.filter (fun p => is_king_piece p && Color_eqb p.1.2 c) (pieces_of b).

(** Both sides have exactly one king. *)
Definition one_king_each (b : Board) : Prop :=
  length (kings_of b WHITE) = 1%nat /\ length (kings_of b BLACK) = 1%nat.

(** The pieces that remain beside the kings, in square order. *)
Definition others_of (b : Board) : list (Z * Color * PieceType) :=
  List.filter (fun p => negb (is_king_piece p)) (pieces_of b).

(** The specification's wording of insufficient material: (a) two bare
    kings, (b) king and a single bishop or knight against a bare king,
    (c) king and bishop against king and bishop, the bishops of opposite
    colours standing on squares of the same shade. *)
Definition spec_insufficient_material (b : Board) : Prop :=
  others_of b = []
  \/ (exists s c pt, others_of b = [(s, c, pt)] /\ (pt = BISHOP \/ pt = KNIGHT))
  \/ (exists s1 c1 s2 c2,
        others_of b = [(s1, c1, BISHOP); (s2, c2, BISHOP)]
        /\ c1 <> c2 /\ square_shade s1 = square_shade s2).

(** ** Text *)

Definition is_digit (c : ascii) : bool := (48 <=? ord c) && (ord c <=? 57).

Fixpoint is_ascii (s : string) : bool :=
  match s with
  | EmptyString => true
  | String c rest => (ord c <? 128) && is_ascii rest
  end.

(** The coordinate text of an on-board square: file letter [a]-[h] from the
    column, rank digit [8]-[1] from the row. *)
Definition coord_text (s : Z) : string :=
  String (ascii_of_nat (Z.to_nat (97 + s mod 8)))
    (String (ascii_of_nat (Z.to_nat (48 + (8 - s / 8)))) EmptyString).

(** The keys of [promo_map] with their values. *)
Definition PROMOTION_NAMES : list (string * PieceType) :=
  [("QUEEN"%string, QUEEN); ("ROOK"%string, ROOK);
   ("BISHOP"%string, BISHOP); ("KNIGHT"%string, KNIGHT)].

(** White pawn on a7, kings on e1 and h8, White to move. *)
Definition promo_game : GameState :=
  bare_game [(8, (WHITE, PAWN)); (60, (WHITE, KING)); (7, (BLACK, KING))]
    WHITE no_rights None.

(** ** Positions *)

(** Back-rank mate: Black king g8 behind pawns f7 g7 h7, White rook e8,
    White king g1; Black to move and mated. *)
Definition black_mated : GameState :=
  bare_game
    [(6, (BLACK, KING)); (13, (BLACK, PAWN)); (14, (BLACK, PAWN));
     (15, (BLACK, PAWN)); (4, (WHITE, ROOK)); (62, (WHITE, KING))]
    BLACK no_rights None.

(** The mirror image: White king g1 behind pawns f2 g2 h2, Black rook e1,
    Black king g8; White to move and mated. *)
Definition white_mated : GameState :=
  bare_game
    [(62, (WHITE, KING)); (53, (WHITE, PAWN)); (54, (WHITE, PAWN));
     (55, (WHITE, PAWN)); (60, (BLACK, ROOK)); (6, (BLACK, KING))]
    WHITE no_rights None.

(** A stalemate: Black king a8, White queen b6, White king e1; Black to
    move, not in check and without a move. *)
Definition black_stalemated : GameState :=
  bare_game [(0, (BLACK, KING)); (17, (WHITE, QUEEN)); (60, (WHITE, KING))]
    BLACK no_rights None.

(** White king h1, bishop g1, pawns g2 h2; Black knight f2 giving check,
    Black king a7 hemmed in by rook a8, knight b8, bishop b7, pawn a6.
    White to move: the capture Bg1xf2 is the only legal move, and it
    mates. *)
Definition only_move_mates : GameState :=
  bare_game
    [(63, (WHITE, KING)); (62, (WHITE, BISHOP)); (54, (WHITE, PAWN));
     (55, (WHITE, PAWN)); (53, (BLACK, KNIGHT)); (8, (BLACK, KING));
     (0, (BLACK, ROOK)); (1, (BLACK, KNIGHT)); (9, (BLACK, BISHOP));
     (16, (BLACK, PAWN))]
    WHITE no_rights None.

(** White king e1 and rook h1 with the kingside right, Black king e8;
    White to move. *)
Definition castle_game : GameState :=
  bare_game [(60, (WHITE, KING)); (63, (WHITE, ROOK)); (4, (BLACK, KING))]
    WHITE (mkRights true false false false) None.

(** White pawn e5, Black pawn d5 just arrived by a double push (en-passant
    square d6), kings e1 and e8; White to move. *)
Definition ep_game : GameState :=
  bare_game
    [(28, (WHITE, PAWN)); (27, (BLACK, PAWN)); (60, (WHITE, KING));
     (4, (BLACK, KING))]
    WHITE no_rights (Some 19).

(** King and bishop against king and bishop, the bishops on c1 and f8
    (squares of one shade), kings e1 and e8. *)
Definition bishops_game : GameState :=
  bare_game
    [(60, (WHITE, KING)); (58, (WHITE, BISHOP)); (4, (BLACK, KING));
     (5, (BLACK, BISHOP))]
    WHITE no_rights None.

(** Committed play of a list of moves from [gs]; [hs] collects the hashes
    of the positions recorded, newest first. *)
Fixpoint play (gs : GameState) (hs : list Z) (moves : list Move)
  : option (GameState * list Z) :=
  match moves with
  | [] => Some (gs, hs)
  | m :: rest =>
      match GameState_make_move gs m with
      | Ok (true, gs') =>
          play gs' (hash_board (_hasher gs') (board gs') :: hs) rest
      | _ => None
      end
  end.

(** Both king's knights out and back: Ng1-f3 Ng8-f6 Nf3-g1 Nf6-g8. *)
Definition knight_cycle : list Move :=
  [Move_plain 62 45; Move_plain 6 21; Move_plain 45 62; Move_plain 21 6].

(** The game one move before the second cycle is complete. *)
Definition before_third_occurrence : option (GameState * list Z) :=
  play new_game [hash_board sample_hasher start_board]
    (knight_cycle ++ [Move_plain 62 45; Move_plain 6 21; Move_plain 45 62]).

Definition seventh_ply_game : GameState :=
  match before_third_occurrence with
  | Some (g, _) => g
  | None => new_game
  end.

Definition seventh_ply_hashes : list Z :=
  match before_third_occurrence with
  | Some (_, hs) => hs
  | None => []
  end.

(** The game after Nf6-g8 completes the second cycle. *)
Definition eighth_ply_game : GameState :=
  match GameState_make_move seventh_ply_game (Move_plain 21 6) with
  | Ok (_, g) => g
  | Raise _ => new_game
  end.

(** Scholar's mate, in coordinate text. *)
Definition scholars_mate : list string :=
  ["e2e4"; "e7e5"; "f1c4"; "b8c6"; "d1h5"; "g8f6"; "h5f7"]%string.

(** The moves a list of coordinate texts decodes to, if all decode. *)
Fixpoint decode_all (texts : list string) : option (list Move) :=
  match texts with
  | [] => Some []
  | t :: rest =>
      match from_uci t, decode_all rest with
      | Ok m, Some ms => Some (m :: ms)
      | _, _ => None
      end
  end.

(** ** Rays *)

(** A step of at most one row and one column, not both zero. *)
Definition unit_step (dr dc : Z) : Prop :=
  -1 <= dr <= 1 /\ -1 <= dc <= 1 /\ (dr <> 0 \/ dc <> 0).

(** The number of steps from [(r, c)] along [(dr, dc)] that can stay on the
    board. *)
Definition room (dr dc r c : Z) : Z :=
  if 0 <? dr then 7 - r
  else if dr <? 0 then r
  else if 0 <? dc then 7 - c
  else c.

(* ===================================================================== *)
(** ** Further vocabulary *)
(* ===================================================================== *)

(** One right is kept from [old] to [new]: nothing is granted. *)
Definition rights_le (new old : CastlingRights) : Prop :=
  (wK new = true -> wK old = true) /\ (wQ new = true -> wQ old = true)
  /\ (bk new = true -> bk old = true) /\ (bq new = true -> bq old = true).

(** The row step of a pawn of [color]: [-1] for White, [1] for Black. *)
Definition pawn_direction (color : Color) : Z :=
  match color with WHITE => -1 | BLACK => 1 end.

(** What [_castling_moves] asks of one castling move: the right, king and
    rook of [color] on their home squares, the squares [between] them
    empty, and no square of the king's [path] attacked by the other side. *)
Definition castle_conditions (b : Board) (color : Color) (right : bool)
    (king rook : Z) (between path : list Z) : Prop :=
  right = true
  /\ piece_at b king = Some (color, KING)
  /\ piece_at b rook = Some (color, ROOK)
  /\ (forall s, In s between -> piece_at b s = None)
  /\ (forall s, In s path -> _is_attacked b s (other color) = false).

(** A king of [color] stands on the board. *)
Definition has_king (b : Board) (color : Color) : Prop :=
  exists k, onb k /\ piece_at b k = Some (color, KING).

(** The en-passant square, when set, and the square of the pawn it would
    take do not hold the king of the side to move. *)
Definition ep_clear (b : Board) : Prop :=
  forall e, ep_square b = Some e ->
    piece_at b e <> Some (turn b, KING)
    /\ piece_at b (ep_victim (turn b) e) <> Some (turn b, KING).

(** White king c6, bishop a7; Black king a8, pawn b6; White to move.
    Kc6xb6 leaves king and bishop against the bare king, and Black, to
    move, has no legal move and is not in check. *)
Definition bishop_ending : GameState :=
  bare_game
    [(18, (WHITE, KING)); (8, (WHITE, BISHOP)); (0, (BLACK, KING));
     (17, (BLACK, PAWN))]
    WHITE no_rights None.
(* ===================================================================== *)
(** * Properties *)
(* ===================================================================== *)

(** ** The model on the scenarios of the test suite *)

Example start_position_has_20_moves :
  res_map (fun l => length l) (legal_list (generate_legal_moves start_board))
  = Ok 20%nat.
Proof. vm_compute. reflexivity. Qed.

Example black_has_20_moves_after_e4 :
  (fun r => length <$> _cached_legal r.1) <$> play new_game [] [Move_plain 52 36]
  = Some (Some 20%nat).
Proof. vm_compute. reflexivity. Qed.

Example scholars_mate_wins_for_white :
  (fun r => (result r.1, draw_reason r.1))
    <$> (decode_all scholars_mate ≫= play new_game [])
  = Some (WHITE_WINS, None).
Proof. vm_compute. reflexivity. Qed.

Example stalemate_is_scored_as_draw :
  (fun g => (result g, draw_reason g))
    <$> (match _update_result black_stalemated with
         | Ok g => Some g
         | Raise _ => None
         end)
  = Some (DRAW, Some STALEMATE).
Proof. vm_compute. reflexivity. Qed.

Example rook_takes_hanging_queen :
  chosen_move
    (best_move (mkSearcher material_evaluate 1 0)
       (bare_game
          [(60, (WHITE, KING)); (32, (WHITE, ROOK)); (4, (BLACK, KING));
           (39, (BLACK, QUEEN))]
          WHITE no_rights None))
  = Ok (Some (Move_plain 32 39)).
Proof. vm_compute. reflexivity. Qed.

Example promotion_is_undone :
  (b1 <- make_move (board promo_game) (Move_promo 8 0 QUEEN) ;;
   b2 <- undo_move b1 ;;
   Ok (piece_at b1 0, piece_at b2 8, piece_at b2 0))
  = Ok (Some (WHITE, QUEEN), Some (WHITE, PAWN), None).
Proof. vm_compute. reflexivity. Qed.

(** ** Reading and writing cells *)

Lemma py_index_in n i : 0 <= i < Z.of_nat n -> py_index n i = Ok (Z.to_nat i).
Proof.
  intros H. unfold py_index.
  destruct (Z.leb_spec 0 i); [|lia]. destruct (Z.ltb_spec i (Z.of_nat n)); [|lia].
  reflexivity.
Qed.

Lemma getitem_cell (l : list (option Piece)) i :
  length l = 64%nat -> 0 <= i < 64 -> getitem l i = Ok (cell l i).
Proof.
  intros Hl Hi. unfold getitem, cell. rewrite py_index_in by lia. simpl.
  destruct (l !! Z.to_nat i) eqn:E; [reflexivity|].
  apply lookup_ge_None in E. lia.
Qed.

Lemma setitem_in (l : list (option Piece)) i x :
  length l = 64%nat -> 0 <= i < 64 -> setitem l i x = Ok (<[Z.to_nat i := x]> l).
Proof.
  intros Hl Hi. unfold setitem. rewrite py_index_in by lia. reflexivity.
Qed.

Lemma cell_insert (l : list (option Piece)) i j x :
  length l = 64%nat -> 0 <= i < 64 -> 0 <= j < 64 ->
  cell (<[Z.to_nat i := x]> l) j = if decide (i = j) then x else cell l j.
Proof.
  intros Hl Hi Hj. unfold cell. rewrite list_lookup_insert.
  destruct (decide (i = j)) as [->|Hne].
  - rewrite decide_True by (split; [reflexivity|lia]). reflexivity.
  - rewrite decide_False by lia. reflexivity.
Qed.

Lemma piece_at_cell b i : 0 <= i < 64 -> piece_at b i = cell (squares b) i.
Proof.
  intros Hi. unfold piece_at, cell.
  destruct (Z.leb_spec 0 i); [|lia]. destruct (Z.ltb_spec i 64); [|lia]. reflexivity.
Qed.

Lemma cell_ext (l1 l2 : list (option Piece)) :
  length l1 = 64%nat -> length l2 = 64%nat ->
  (forall i, 0 <= i < 64 -> cell l1 i = cell l2 i) -> l1 = l2.
Proof.
  intros H1 H2 H. apply list_eq. intros n.
  destruct (decide (n < 64)%nat) as [Hn|Hn].
  - specialize (H (Z.of_nat n) ltac:(lia)). unfold cell in H.
    rewrite Nat2Z.id in H.
    destruct (l1 !! n) eqn:E1; destruct (l2 !! n) eqn:E2; simpl in H; subst; try reflexivity.
    + apply lookup_ge_None in E2. lia.
    + apply lookup_ge_None in E1. lia.
  - rewrite !(proj2 (lookup_ge_None _ _)) by lia. reflexivity.
Qed.

Ltac len64 := rewrite ?length_insert; assumption.

Ltac run_cells :=
  repeat first
    [ rewrite getitem_cell by (first [len64 | unfold onb in *; lia])
    | rewrite setitem_in by (first [len64 | unfold onb in *; lia])
    | progress cbn [bind] ].

Ltac cells :=
  repeat (rewrite cell_insert by (first [len64 | unfold onb in *; lia]));
  repeat (destruct (decide _); try (unfold onb in *; lia); subst);
  try reflexivity; try congruence.

Lemma other_other c : other (other c) = c.
Proof. destruct c; reflexivity. Qed.

Ltac fields :=
  cbn [from_sq to_sq promotion is_castle is_en_passant squares turn
       castling_rights ep_square halfmove_clock fullmove_number _history
       u_move u_captured u_ep_captured u_castling_rights u_ep_square
       u_halfmove_clock u_fullmove_number promotion_truthy
       Move_plain Move_promo Move_ep Move_castle].

Ltac fields_in H :=
  cbn [from_sq to_sq promotion is_castle is_en_passant squares turn
       castling_rights ep_square halfmove_clock fullmove_number _history] in H.

Ltac sq_consts :=
  change (sq 7 7) with 63; change (sq 7 6) with 62; change (sq 7 5) with 61;
  change (sq 7 4) with 60; change (sq 7 3) with 59; change (sq 7 2) with 58;
  change (sq 7 1) with 57; change (sq 7 0) with 56;
  change (sq 0 7) with 7; change (sq 0 6) with 6; change (sq 0 5) with 5;
  change (sq 0 4) with 4; change (sq 0 3) with 3; change (sq 0 2) with 2;
  change (sq 0 1) with 1; change (sq 0 0) with 0.

Ltac eqb_consts :=
  repeat match goal with
  | |- context [Z.eqb ?a ?b] =>
      let v := eval vm_compute in (Z.eqb a b) in
      match v with true => idtac | false => idtac end;
      change (Z.eqb a b) with v
  end; cbv iota.

Lemma make_undo b m :
  wf_board b -> move_ok b m ->
  exists b1, make_move b m = Ok b1 /\ undo_move b1 = Ok b.
Proof.
  intros Hwf Hok. unfold wf_board in Hwf.
  destruct b as [sqs tn cr ep hm fm hist]. cbn [squares turn] in *.
  inversion Hok as [f t pt Hf Ht Hne Hp | f t p Hf Ht Hne Hp Hpp
                   | f t pt Hf Ht Hne Hp Hv Hvf Hvt | f t r r' pt Hs Hp Hrk Hr]; subst m; clear Hok.
  - rewrite piece_at_cell in Hp by exact Hf. fields_in Hp.
    unfold make_move. fields.
    run_cells. rewrite Hp. run_cells.
    eexists. split; [reflexivity|].
    unfold undo_move. fields.
    run_cells. rewrite other_other. f_equal. f_equal.
    apply cell_ext; [len64 | len64 |]. intros i Hi.
    cells.
  - rewrite piece_at_cell in Hp by exact Hf. fields_in Hp.
    unfold make_move. fields.
    run_cells. rewrite Hp. run_cells.
    eexists. split; [reflexivity|].
    unfold undo_move. fields.
    replace (negb (PieceType_int p =? 0)) with true by (destruct p; try reflexivity; congruence).
    run_cells. rewrite other_other. f_equal. f_equal.
    apply cell_ext; [len64 | len64 |]. intros i Hi.
    cells.
  - rewrite piece_at_cell in Hp by exact Hf. fields_in Hp.
    unfold make_move. fields.
    run_cells. rewrite Hp. fold (ep_victim tn t). run_cells.
    eexists. split; [reflexivity|].
    unfold undo_move. fields.
    run_cells. rewrite other_other. f_equal. f_equal.
    apply cell_ext; [len64 | len64 |]. intros i Hi.
    cells.
  - assert (Hf : onb f) by (inversion Hs; unfold onb; lia).
    assert (Hr' : onb r') by (inversion Hs; unfold onb; lia).
    rewrite piece_at_cell in Hp by exact Hf. fields_in Hp.
    rewrite piece_at_cell in Hr by exact Hr'. fields_in Hr.
    unfold make_move. fields.
    run_cells. rewrite Hp. run_cells.
    inversion Hs; subst f t r r'; unfold castle_rook, relocate; sq_consts; eqb_consts;
      run_cells; (eexists; split; [reflexivity|]);
      unfold undo_move; fields; run_cells;
      unfold uncastle_rook, relocate; sq_consts; eqb_consts;
      run_cells; rewrite other_other; f_equal; f_equal;
      (apply cell_ext; [len64 | len64 |]); intros i Hi; cells.
Qed.

Lemma in_range64 s : In s range64 -> 0 <= s < 64.
Proof.
  unfold range64. intros H. apply list_elem_of_In, list_elem_of_fmap in H.
  destruct H as [n [-> Hn]]. apply elem_of_seq in Hn. lia.
Qed.

Lemma in07_spec x : in07 x = true -> 0 <= x <= 7.
Proof. unfold in07. intros H. apply andb_prop in H. destruct H. lia. Qed.

Lemma on_board_spec r c : on_board r c = true -> 0 <= r <= 7 /\ 0 <= c <= 7.
Proof.
  unfold on_board. intros H. apply andb_prop in H. destruct H as [H1 H2].
  apply in07_spec in H1, H2. lia.
Qed.

Lemma Color_eqb_eq a b : Color_eqb a b = true -> a = b.
Proof. unfold Color_eqb. intros H. apply bool_decide_eq_true_1 in H. exact H. Qed.

Ltac split_in :=
  repeat match goal with
  | H : In _ (_ ++ _) |- _ => apply in_app_or in H; destruct H as [H|H]
  | H : In _ [] |- _ => destruct H
  | H : In _ (_ :: _) |- _ => destruct H as [H|H]; [symmetry in H; subst|]
  | H : In _ (if ?c then _ else _) |- _ => destruct c eqn:?
  | H : In _ (match ?x with _ => _ end) |- _ => destruct x eqn:?
  end.

Lemma slide_shape fuel b s color dr dc r c m :
  In m (slide fuel b s color dr dc r c) ->
  exists k, 0 <= k /\ on_board (r + k * dr) (c + k * dc) = true
            /\ m = Move_plain s (sq (r + k * dr) (c + k * dc)).
Proof.
  revert r c. induction fuel as [|fuel IH]; intros r c H; cbn [slide] in H.
  - destruct H.
  - destruct (on_board r c) eqn:Hb; [|destruct H].
    destruct (piece_at b (sq r c)) as [[tc tp]|] eqn:Hp.
    + destruct (negb (Color_eqb tc color)); [|destruct H].
      destruct H as [<-|[]]. exists 0. rewrite !Z.mul_0_l, !Z.add_0_r. auto with zarith.
    + destruct H as [<-|H].
      * exists 0. rewrite !Z.mul_0_l, !Z.add_0_r. auto with zarith.
      * apply IH in H. destruct H as (k & Hk & Hb' & ->).
        exists (k + 1).
        replace (r + (k + 1) * dr) with (r + dr + k * dr) by ring.
        replace (c + (k + 1) * dc) with (c + dc + k * dc) by ring.
        split; [lia|]. split; [exact Hb'|reflexivity].
Qed.

Lemma rc_facts s : 0 <= s < 64 ->
  s = s / 8 * 8 + s mod 8 /\ 0 <= s / 8 <= 7 /\ 0 <= s mod 8 <= 7.
Proof. intros H. Z.div_mod_to_equations. lia. Qed.

Ltac facts :=
  repeat match goal with
  | H : in07 _ = true |- _ => apply in07_spec in H
  | H : on_board _ _ = true |- _ => apply on_board_spec in H
  | H : (_ =? _) = true |- _ => apply Z.eqb_eq in H
  | H : (_ =? _) = false |- _ => apply Z.eqb_neq in H
  end.

Ltac arith := unfold onb, sq, ep_victim in *; Z.div_mod_to_equations; lia.

Lemma pawn_moves_ok b s m :
  0 <= s < 64 -> piece_at b s = Some (turn b, PAWN) ->
  In m (_pawn_moves b s (turn b)) -> move_ok b m.
Proof.
  intros Hs Hp H. destruct (rc_facts s Hs) as (Hrc & Hr & Hc).
  unfold _pawn_moves, row_col, _PROMOTIONS in H.
  remember (s / 8) as row. remember (s mod 8) as col.
  clear Heqrow Heqcol.
  destruct (turn b) eqn:Ht; cbn [flat_map fmap list_fmap app] in H;
    split_in; facts.
  all: try (eapply ok_plain; [ | | | rewrite Ht; exact Hp]; arith).
  all: try (eapply ok_promo; [ | | | rewrite Ht; exact Hp | discriminate]; arith).
  all: try (eapply ok_ep; [ | | | rewrite Ht; exact Hp | | | ]; rewrite ?Ht; arith).
Qed.

Lemma delta_moves_ok deltas b s pt m :
  (forall d, In d deltas -> d.1 * 8 + d.2 <> 0) ->
  0 <= s < 64 -> piece_at b s = Some (turn b, pt) ->
  In m (delta_moves deltas b s (turn b)) -> move_ok b m.
Proof.
  intros Hd Hs Hp H. destruct (rc_facts s Hs) as (Hrc & Hr & Hc).
  unfold delta_moves, row_col in H.
  apply in_flat_map in H. destruct H as ([dr dc] & Hin & H).
  specialize (Hd _ Hin). cbn [fst snd] in *.
  split_in; facts.
  eapply ok_plain; [ | | | exact Hp]; arith.
Qed.

Lemma sliding_ok dirs b s pt m :
  (forall d, In d dirs -> d.1 * 8 + d.2 <> 0 /\ -1 <= d.1 <= 1 /\ -1 <= d.2 <= 1) ->
  0 <= s < 64 -> piece_at b s = Some (turn b, pt) ->
  In m (_sliding b s (turn b) dirs) -> move_ok b m.
Proof.
  intros Hd Hs Hp H. destruct (rc_facts s Hs) as (Hrc & Hr & Hc).
  unfold _sliding, row_col in H.
  apply in_flat_map in H. destruct H as ([dr dc] & Hin & H).
  specialize (Hd _ Hin). cbn [fst snd] in *.
  apply slide_shape in H. destruct H as (k & Hk & Hb & ->). facts.
  eapply ok_plain; [ | | | exact Hp]; unfold onb, sq in *; try nia.
Qed.

Lemma deltas_nonzero deltas :
  forallb (fun d : Z * Z => negb (d.1 * 8 + d.2 =? 0)) deltas = true ->
  forall d, In d deltas -> d.1 * 8 + d.2 <> 0.
Proof.
  intros H d Hd. rewrite forallb_forall in H. specialize (H d Hd).
  apply negb_true_iff, Z.eqb_neq in H. exact H.
Qed.

Lemma dirs_unit dirs :
  forallb (fun d : Z * Z =>
             negb (d.1 * 8 + d.2 =? 0) && (-1 <=? d.1) && (d.1 <=? 1)
             && (-1 <=? d.2) && (d.2 <=? 1)) dirs = true ->
  forall d, In d dirs -> d.1 * 8 + d.2 <> 0 /\ -1 <= d.1 <= 1 /\ -1 <= d.2 <= 1.
Proof.
  intros H d Hd. rewrite forallb_forall in H. specialize (H d Hd).
  repeat (apply andb_prop in H; destruct H as [H ?]).
  apply negb_true_iff, Z.eqb_neq in H. lia.
Qed.

Lemma moves_from_ok b s m :
  0 <= s < 64 -> In m (moves_from b (turn b) s) -> move_ok b m.
Proof.
  intros Hs H. unfold moves_from in H.
  destruct (piece_at b s) as [[c pt]|] eqn:Hp; [|destruct H].
  destruct (Color_eqb c (turn b)) eqn:Hc; cbn [negb] in H; [|destruct H].
  apply Color_eqb_eq in Hc. subst c.
  destruct pt.
  - eapply pawn_moves_ok; eauto.
  - eapply (delta_moves_ok _KNIGHT_DELTAS);
      [apply deltas_nonzero; reflexivity| | |]; eauto.
  - eapply (sliding_ok _DIAG); [apply dirs_unit; reflexivity| | |]; eauto.
  - eapply (sliding_ok _ORTH); [apply dirs_unit; reflexivity| | |]; eauto.
  - eapply (sliding_ok (_DIAG ++ _ORTH));
      [apply dirs_unit; reflexivity| | |]; eauto.
  - eapply (delta_moves_ok _KING_DELTAS);
      [apply deltas_nonzero; reflexivity| | |]; eauto.
Qed.

Lemma pseudo_legal_ok b m : In m (_pseudo_legal b (turn b)) -> move_ok b m.
Proof.
  unfold _pseudo_legal. intros H. apply in_flat_map in H.
  destruct H as (s & Hs & H). apply in_range64 in Hs.
  eapply moves_from_ok; eauto.
Qed.

Lemma castling_moves_ok b m : In m (_castling_moves b (turn b)) -> move_ok b m.
Proof.
  unfold _castling_moves, is_empty. sq_consts. intros H.
  destruct (turn b) eqn:Ht.
  - destruct (bool_decide (piece_at b 60 = Some (WHITE, KING))) eqn:Hk;
      cbn [negb] in H; [|destruct H].
    apply bool_decide_eq_true_1 in Hk.
    split_in;
      repeat match goal with
      | H : _ && _ = true |- _ => apply andb_prop in H; destruct H
      | H : bool_decide _ = true |- _ => apply bool_decide_eq_true_1 in H
      end.
    + eapply ok_castle; [apply shape_K | rewrite Ht; eassumption | rewrite Ht; assumption | assumption].
    + eapply ok_castle; [apply shape_Q | rewrite Ht; eassumption | rewrite Ht; assumption | assumption].
  - destruct (bool_decide (piece_at b 4 = Some (BLACK, KING))) eqn:Hk;
      cbn [negb] in H; [|destruct H].
    apply bool_decide_eq_true_1 in Hk.
    split_in;
      repeat match goal with
      | H : _ && _ = true |- _ => apply andb_prop in H; destruct H
      | H : bool_decide _ = true |- _ => apply bool_decide_eq_true_1 in H
      end.
    + eapply ok_castle; [apply shape_k | rewrite Ht; eassumption | rewrite Ht; assumption | assumption].
    + eapply ok_castle; [apply shape_q | rewrite Ht; eassumption | rewrite Ht; assumption | assumption].
Qed.

(** ** The filtering loop leaves the board as it found it *)

Lemma legal_filter_spec b color ms r :
  wf_board b -> (forall m, In m ms -> move_ok b m) ->
  legal_filter b color ms = Ok r ->
  r = (List.filter (king_safe_after b color) ms, b).
Proof.
  intros Hwf. revert r. induction ms as [|m ms IH]; intros r Hok H.
  - cbn in H. injection H as <-. reflexivity.
  - cbn [legal_filter] in H.
    destruct (make_undo b m Hwf (Hok m (or_introl eq_refl))) as (b1 & Hmk & Hun).
    rewrite Hmk in H. cbn [bind] in H.
    cbn [List.filter]. unfold king_safe_after at 1. rewrite Hmk.
    destruct (find_king b1 color) as [k|]; [|discriminate].
    rewrite Hun in H. cbn [bind] in H.
    destruct (legal_filter b color ms) as [r'|e] eqn:Hr; [|discriminate].
    cbn [bind] in H. injection H as <-.
    rewrite (IH r') by (intros; auto using in_cons). cbn [fst snd].
    destruct (_is_attacked b1 k (other color)); reflexivity.
Qed.

Lemma generate_legal_moves_spec b r :
  wf_board b -> generate_legal_moves b = Ok r ->
  r = (List.filter (king_safe_after b (turn b))
         (_pseudo_legal b (turn b) ++ _castling_moves b (turn b)), b).
Proof.
  intros Hwf H. unfold generate_legal_moves in H.
  eapply legal_filter_spec; eauto.
  intros m Hm. apply in_app_or in Hm.
  destruct Hm; [apply pseudo_legal_ok | apply castling_moves_ok]; assumption.
Qed.

Lemma legal_move_ok b legal b' m :
  wf_board b -> generate_legal_moves b = Ok (legal, b') -> In m legal ->
  b' = b /\ move_ok b m /\ king_safe_after b (turn b) m = true.
Proof.
  intros Hwf H Hm. apply generate_legal_moves_spec in H; [|exact Hwf].
  injection H as -> ->. apply filter_In in Hm. destruct Hm as [Hm Hs].
  split; [reflexivity|]. split; [|exact Hs].
  apply in_app_or in Hm.
  destruct Hm; [apply pseudo_legal_ok | apply castling_moves_ok]; assumption.
Qed.


(** ** Claims on the board and the move generator *)

(** C2. From a 64-square board, for every move of the list that
    [generate_legal_moves] returns, [make_move] succeeds and the
    [undo_move] that follows gives back the board it started from: squares,
    castling rights, en-passant square, both clocks, turn and undo stack.
    The generator itself hands the board back unchanged. *)
Theorem make_then_undo_restores b legal b' m :
  wf_board b ->
  generate_legal_moves b = Ok (legal, b') ->
  In m legal ->
  b' = b /\ exists b1, make_move b m = Ok b1 /\ undo_move b1 = Ok b.
Proof.
  intros Hwf H Hm.
  destruct (legal_move_ok b legal b' m Hwf H Hm) as (-> & Hok & _).
  split; [reflexivity|]. apply make_undo; assumption.
Qed.

(** C3. Every move returned by [generate_legal_moves] leaves, once made,
    the mover's king on a square that [_is_attacked] finds not attacked by
    the other side. *)
Theorem legal_moves_keep_king_safe b legal b' m :
  wf_board b ->
  generate_legal_moves b = Ok (legal, b') ->
  In m legal ->
  exists b1 king_sq,
    make_move b m = Ok b1
    /\ find_king b1 (turn b) = Some king_sq
    /\ _is_attacked b1 king_sq (other (turn b)) = false.
Proof.
  intros Hwf H Hm.
  destruct (legal_move_ok b legal b' m Hwf H Hm) as (_ & _ & Hs).
  unfold king_safe_after in Hs.
  destruct (make_move b m) as [b1|]; [|discriminate].
  destruct (find_king b1 (turn b)) as [k|] eqn:Hk; [|discriminate].
  exists b1, k. apply negb_true_iff in Hs. auto.
Qed.

(** ** [make_move] keeps the board at 64 squares *)

Lemma setitem_length {A} (l l' : list A) i x :
  setitem l i x = Ok l' -> length l' = length l.
Proof.
  unfold setitem. destruct (py_index (length l) i); cbn [bind]; [|discriminate].
  intros [= <-]. apply length_insert.
Qed.

Lemma relocate_length l l' a c :
  relocate l a c = Ok l' -> length l' = length l.
Proof.
  unfold relocate. destruct (getitem l a); cbn [bind]; [|discriminate].
  destruct (setitem l c a0) eqn:E; cbn [bind]; [|discriminate].
  intros H. apply setitem_length in H, E. congruence.
Qed.

Lemma castle_rook_length l l' d :
  castle_rook l d = Ok l' -> length l' = length l.
Proof.
  unfold castle_rook.
  repeat (destruct (_ =? _); [apply relocate_length|]).
  intros [= <-]. reflexivity.
Qed.

Lemma make_move_wf b m b1 : wf_board b -> make_move b m = Ok b1 -> wf_board b1.
Proof.
  unfold wf_board, make_move. intros Hwf H.
  destruct (getitem (squares b) (from_sq m)) as [[[color pt]|]|]; cbn [bind] in H;
    [|discriminate|discriminate].
  destruct (getitem (squares b) (to_sq m)) as [captured|]; cbn [bind] in H;
    [|discriminate].
  match type of H with
  | bind ?c _ = _ => destruct c as [[epc s1]|] eqn:E1; cbn [bind] in H; [|discriminate]
  end.
  assert (length s1 = 64%nat) as L1.
  { destruct (is_en_passant m).
    - destruct (getitem _ _); cbn [bind] in E1; [|discriminate].
      destruct (setitem _ _ _) as [s|] eqn:E; cbn [bind] in E1; [|discriminate].
      injection E1 as _ <-. apply setitem_length in E. congruence.
    - injection E1 as _ <-. exact Hwf. }
  destruct (setitem s1 _ _) as [s2|] eqn:E2; cbn [bind] in H; [|discriminate].
  destruct (setitem s2 _ _) as [s3|] eqn:E3; cbn [bind] in H; [|discriminate].
  match type of H with
  | bind ?c _ = _ => destruct c as [s4|] eqn:E4; cbn [bind] in H; [|discriminate]
  end.
  match type of H with
  | bind ?c _ = _ => destruct c as [s5|] eqn:E5; cbn [bind] in H; [|discriminate]
  end.
  injection H as <-. cbn [squares].
  apply setitem_length in E2, E3.
  assert (length s4 = length s3) as L4.
  { destruct (promotion m); [apply setitem_length in E4; exact E4|congruence]. }
  assert (length s5 = length s4) as L5.
  { destruct (is_castle m); [apply castle_rook_length in E5; exact E5|congruence]. }
  congruence.
Qed.

(** ** The game state *)

Lemma legal_moves_spec gs l gs1 :
  wf_board (board gs) -> legal_moves gs = Ok (l, gs1) ->
  gs1 = set_cached gs (Some l)
  /\ (forall c, _cached_legal gs = Some c -> l = c /\ gs1 = gs).
Proof.
  intros Hwf H. unfold legal_moves in H.
  destruct gs as [b z pc mh cl rs dr rg]. cbn [_cached_legal board] in *.
  destruct cl as [c|].
  - injection H as <- <-. split; [reflexivity|]. intros c' [= <-]. auto.
  - destruct (generate_legal_moves b) as [r|] eqn:E; cbn [bind] in H; [|discriminate].
    apply generate_legal_moves_spec in E; [|exact Hwf]. subst r.
    cbn [fst snd] in H. injection H as <- <-.
    split; [reflexivity|]. intros c' [=].
Qed.

Lemma member_is_accepted gs move l gs1 ok gs' :
  result gs = ONGOING -> legal_moves gs = Ok (l, gs1) ->
  Move_in move l = true ->
  GameState_make_move gs move = Ok (ok, gs') -> ok = true.
Proof.
  intros Hr Hl Hin. unfold GameState_make_move.
  rewrite bool_decide_eq_true_2 by exact Hr. cbn [negb].
  rewrite Hl. cbn [bind fst snd]. rewrite Hin. cbn [negb].
  destruct (make_move (board gs1) move); cbn [bind]; [|discriminate].
  destruct (_update_result _); cbn [bind]; [|discriminate].
  intros [= <- _]. reflexivity.
Qed.

(** C4 (amended). A move submitted to a finished game is refused and the
    game state is returned as it was.  In an ongoing game a move that
    matches no entry of the legal-move list by (from, to, promotion) is
    refused with board, history, position counts, result and draw reason
    unchanged, while the cache holds the legal-move list afterwards: it is
    unchanged when it was present and filled when it was absent.  A move
    that does match is never answered with a refusal. *)
Theorem make_move_rejection gs move :
  wf_board (board gs) ->
  (result gs <> ONGOING -> GameState_make_move gs move = Ok (false, gs))
  /\ (result gs = ONGOING ->
      forall l gs1, legal_moves gs = Ok (l, gs1) ->
        gs1 = set_cached gs (Some l)
        /\ (forall c, _cached_legal gs = Some c -> gs1 = gs)
        /\ (Move_in move l = false ->
            GameState_make_move gs move = Ok (false, gs1))
        /\ (Move_in move l = true ->
            forall ok gs', GameState_make_move gs move = Ok (ok, gs') ->
                           ok = true)).
Proof.
  intros Hwf. split.
  - intros Hr. unfold GameState_make_move.
    rewrite bool_decide_eq_false_2 by exact Hr. reflexivity.
  - intros Hr l gs1 Hl.
    destruct (legal_moves_spec gs l gs1 Hwf Hl) as [E Hc].
    split; [exact E|]. split; [intros c Hcc; apply (Hc c Hcc)|]. split.
    + intros Hin. unfold GameState_make_move.
      rewrite bool_decide_eq_true_2 by exact Hr. cbn [negb].
      rewrite Hl. cbn [bind fst snd]. rewrite Hin. reflexivity.
    + intros Hin ok gs'. exact (member_is_accepted gs move l gs1 ok gs' Hr Hl Hin).
Qed.

Lemma wf_new_game : wf_board (board new_game).
Proof. reflexivity. Qed.

Lemma make_move_rejection_witness :
  GameState_make_move (resign new_game WHITE) (Move_plain 52 36)
  = Ok (false, resign new_game WHITE).
Proof.
  apply (proj1 (make_move_rejection (resign new_game WHITE) (Move_plain 52 36)
                  wf_new_game)).
  vm_compute. discriminate.
Defined.

(** C4 (as stated) fails: on a fresh game, whose cache is still absent, a
    refused move leaves the cache filled. *)
Lemma rejected_move_fills_cache :
  exists gs',
    GameState_make_move new_game (Move_plain 36 28) = Ok (false, gs')
    /\ _cached_legal new_game = None
    /\ _cached_legal gs' <> None
    /\ gs' <> new_game.
Proof.
  eexists. split; [vm_compute; reflexivity|].
  split; [reflexivity|]. split; [discriminate|].
  intros H. apply (f_equal _cached_legal) in H. discriminate H.
Qed.

Lemma update_result_spec g g' :
  wf_board (board g) -> _cached_legal g = None ->
  _update_result g = Ok g' ->
  exists l, generate_legal_moves (board g) = Ok (l, board g)
            /\ g' = verdict g l.
Proof.
  intros Hwf Hc H. unfold _update_result in H.
  destruct (legal_moves g) as [[l g1]|] eqn:Hl; cbn [bind fst snd] in H;
    [|discriminate].
  destruct (legal_moves_spec g l g1 Hwf Hl) as [-> _].
  exists l. split.
  - unfold legal_moves in Hl. rewrite Hc in Hl.
    destruct (generate_legal_moves (board g)) as [r|] eqn:E; [|discriminate].
    pose proof (generate_legal_moves_spec _ _ Hwf E) as ->.
    cbn [bind fst snd] in Hl. injection Hl as <-. reflexivity.
  - unfold verdict. destruct l as [|m l].
    + destruct (is_in_check _ _); injection H as <-; reflexivity.
    + destruct (100 <=? _); [injection H as <-; reflexivity|].
      destruct (3 <=? _); [injection H as <-; reflexivity|].
      destruct (_is_insufficient_material _); injection H as <-; reflexivity.
Qed.

Lemma verdict_fields g l :
  board (verdict g l) = board g
  /\ _hasher (verdict g l) = _hasher g
  /\ _position_counts (verdict g l) = _position_counts g
  /\ _move_history (verdict g l) = _move_history g
  /\ _cached_legal (verdict g l) = Some l.
Proof.
  unfold verdict. destruct l.
  - destruct (is_in_check _ _); repeat split.
  - destruct (100 <=? _); [repeat split|].
    destruct (3 <=? _); [repeat split|].
    destruct (_is_insufficient_material _); repeat split.
Qed.

Lemma commit_spec gs move gs' :
  wf_board (board gs) ->
  GameState_make_move gs move = Ok (true, gs') ->
  result gs = ONGOING
  /\ exists l gs1 b1 l',
       legal_moves gs = Ok (l, gs1) /\ Move_in move l = true
       /\ make_move (board gs) move = Ok b1
       /\ generate_legal_moves b1 = Ok (l', b1)
       /\ gs' = verdict (after_commit gs move b1) l'.
Proof.
  intros Hwf H. unfold GameState_make_move in H.
  destruct (bool_decide (result gs = ONGOING)) eqn:Hr; cbn [negb] in H;
    [|discriminate].
  apply bool_decide_eq_true_1 in Hr. split; [exact Hr|].
  destruct (legal_moves gs) as [[l gs1]|] eqn:Hl; cbn [bind fst snd] in H;
    [|discriminate].
  destruct (legal_moves_spec gs l gs1 Hwf Hl) as [E _].
  destruct (Move_in move l) eqn:Hin; cbn [negb] in H; [|discriminate].
  destruct (make_move (board gs1) move) as [b1|] eqn:Hmk; cbn [bind] in H;
    [|discriminate].
  match type of H with
  | bind (_update_result ?g) _ = _ =>
      destruct (_update_result g) as [g'|] eqn:Hu; cbn [bind] in H; [|discriminate]
  end.
  injection H as <-.
  assert (board gs1 = board gs) as Hb by (subst gs1; reflexivity).
  rewrite Hb in Hmk.
  apply update_result_spec in Hu;
    [| exact (make_move_wf _ _ _ Hwf Hmk) | reflexivity].
  destruct Hu as (l' & Hg & ->).
  exists l, gs1, b1, l'. subst gs1. cbn in Hg |- *. auto 10.
Qed.

Lemma count_after_commit gs move b1 h :
  count_of (after_commit gs move b1) h
  = if decide (hash_board (_hasher gs) b1 = h)
    then count_of gs (hash_board (_hasher gs) b1) + 1
    else count_of gs h.
Proof.
  unfold after_commit, _record_position, count_of.
  cbn [_position_counts _hasher board].
  destruct (decide (hash_board (_hasher gs) b1 = h)) as [->|Hne].
  - rewrite lookup_insert_eq. reflexivity.
  - rewrite lookup_insert_ne by exact Hne. reflexivity.
Qed.

Lemma committed_inv z hs gs :
  committed z hs gs ->
  wf_board (board gs) /\ _hasher gs = z
  /\ forall h, count_of gs h = Z.of_nat (count_occ Z.eq_dec hs h).
Proof.
  induction 1 as [|hs gs move gs' Hc (Hwf & Hz & Hn) Hm].
  - split; [reflexivity|]. split; [reflexivity|]. intros h.
    unfold GameState_init, _record_position, count_of.
    cbn [_position_counts _hasher board count_occ].
    destruct (Z.eq_dec (hash_board z start_board) h) as [->|Hne].
    + rewrite lookup_insert_eq. reflexivity.
    + rewrite lookup_insert_ne by exact Hne. reflexivity.
  - destruct (commit_spec gs move gs' Hwf Hm)
      as (Hr & l & gs1 & b1 & l' & Hl & Hin & Hmk & Hg & ->).
    destruct (verdict_fields (after_commit gs move b1) l')
      as (Eb & Eh & Ec & _ & _).
    assert (board (after_commit gs move b1) = b1) as Eb1 by reflexivity.
    assert (_hasher (after_commit gs move b1) = _hasher gs) as Eh1 by reflexivity.
    rewrite Eb, Eb1. split; [exact (make_move_wf _ _ _ Hwf Hmk)|].
    split; [congruence|]. intros h.
    transitivity (count_of (after_commit gs move b1) h).
    { unfold count_of. rewrite Ec. reflexivity. }
    rewrite count_after_commit, Hz.
    destruct (decide (hash_board z b1 = h)) as [E|Hne].
    + rewrite (count_occ_cons_eq Z.eq_dec hs E), E, Hn. lia.
    + rewrite (count_occ_cons_neq Z.eq_dec hs Hne). apply Hn.
Qed.

(** C6. After a committed move the legal-move list of the new position
    is cached, and the count kept for the hash of the new position is the
    number of its occurrences among the positions committed so far, the
    initial one included.  When that list is not empty and the halfmove
    clock is below 100, the result is a draw by threefold repetition
    exactly when that number is at least three; when the list is empty or
    the clock has reached 100, the earlier rules decide and no threefold
    draw is declared. *)
Theorem threefold_on_third_occurrence z hs gs move gs' :
  committed z hs gs ->
  GameState_make_move gs move = Ok (true, gs') ->
  let h := hash_board z (board gs') in
  let threefold := result gs' = DRAW /\ draw_reason gs' = Some THREEFOLD in
  exists l,
    legal_moves gs' = Ok (l, gs')
    /\ count_of gs' h = Z.of_nat (count_occ Z.eq_dec (h :: hs) h)
    /\ (l <> [] -> halfmove_clock (board gs') < 100 ->
        (threefold <-> (3 <= count_occ Z.eq_dec (h :: hs) h)%nat))
    /\ (l = [] \/ 100 <= halfmove_clock (board gs') -> ~ threefold).
Proof.
  intros Hc Hm h threefold.
  pose proof (committed_inv _ _ _ (committed_move z hs gs move gs' Hc Hm))
    as (Hwf' & Hz' & Hn'). fold h in Hn'.
  destruct (committed_inv _ _ _ Hc) as (Hwf & Hz & Hn).
  destruct (commit_spec gs move gs' Hwf Hm)
    as (Hr & l0 & gs1 & b1 & l & Hl0 & Hin & Hmk & Hg & E).
  destruct (verdict_fields (after_commit gs move b1) l)
    as (Eb & Eh & Ec & _ & Ecl).
  rewrite <- E in Eb, Eh, Ec, Ecl.
  exists l. split; [unfold legal_moves; rewrite Ecl; reflexivity|].
  split; [apply Hn'|].
  rewrite Nat2Z.inj_le, <- Hn'. change (Z.of_nat 3) with 3.
  set (G := set_cached (after_commit gs move b1) (Some l)) in *.
  assert (result G = ONGOING) as HrG by exact Hr.
  assert (halfmove_clock (board gs') = halfmove_clock (board G)) as ->
    by (change (board G) with (board (after_commit gs move b1));
        rewrite <- Eb; reflexivity).
  assert (count_of gs' h = count_of G (hash_board (_hasher G) (board G))) as ->.
  { subst h. rewrite <- Hz'.
    change (_hasher G) with (_hasher (after_commit gs move b1)).
    change (board G) with (board (after_commit gs move b1)).
    rewrite <- Eb, <- Eh. unfold count_of. rewrite Ec. reflexivity. }
  subst threefold. rewrite E. unfold verdict. fold G.
  destruct l as [|m0 l].
  - split; [congruence|]. intros _.
    destruct (is_in_check (board G) (turn (board G)));
      cbn [set_draw set_result result draw_reason];
      [destruct (turn (board G))|]; intros [? ?]; congruence.
  - destruct (Z.leb_spec 100 (halfmove_clock (board G))) as [Hge|Hlt].
    + split; [lia|]. intros _. cbn [set_draw result draw_reason].
      intros [? ?]; congruence.
    + split; [|intros [?|?]; [discriminate|lia]]. intros _ _.
      destruct (Z.leb_spec 3 (count_of G (hash_board (_hasher G) (board G))))
        as [H3|H3].
      * cbn [set_draw result draw_reason]. tauto.
      * destruct (_is_insufficient_material G);
          cbn [set_draw result draw_reason];
          rewrite ?HrG; (split; [intros [? ?]; congruence | lia]).
Qed.

(** ** The submitted move object is the one applied *)

Lemma make_move_plain_squares b f t c pt :
  wf_board b -> onb f -> onb t -> piece_at b f = Some (c, pt) ->
  exists b1, make_move b (Move_plain f t) = Ok b1
    /\ squares b1 = <[Z.to_nat f := None]> (<[Z.to_nat t := Some (c, pt)]> (squares b)).
Proof.
  intros Hwf Hf Ht Hp. unfold wf_board in Hwf.
  rewrite piece_at_cell in Hp by exact Hf.
  unfold make_move. fields. run_cells. rewrite Hp. run_cells.
  eexists. split; reflexivity.
Qed.

Lemma make_move_castle_rook b f t r r' c pt :
  wf_board b -> castle_shape f t r r' -> piece_at b f = Some (c, pt) ->
  exists b2, make_move b (Move_castle f t) = Ok b2 /\ piece_at b2 r = None.
Proof.
  intros Hwf Hs Hp. unfold wf_board in Hwf.
  assert (Hf : onb f) by (inversion Hs; unfold onb; lia).
  rewrite piece_at_cell in Hp by exact Hf.
  unfold make_move. fields. run_cells. rewrite Hp.
  inversion Hs; subst f t r r'; run_cells;
    unfold castle_rook, relocate; sq_consts; eqb_consts; run_cells;
    (eexists; split; [reflexivity|]);
    (rewrite piece_at_cell by lia); cbn [squares]; cells.
Qed.

Lemma make_move_ep_victim b f t pt :
  wf_board b -> onb f -> onb t -> piece_at b f = Some (turn b, pt) ->
  onb (ep_victim (turn b) t) -> ep_victim (turn b) t <> f ->
  ep_victim (turn b) t <> t ->
  exists b2, make_move b (Move_ep f t) = Ok b2
             /\ piece_at b2 (ep_victim (turn b) t) = None.
Proof.
  intros Hwf Hf Ht Hp Hv Hvf Hvt. unfold wf_board in Hwf.
  rewrite piece_at_cell in Hp by exact Hf.
  unfold make_move. fields. run_cells. rewrite Hp.
  fold (ep_victim (turn b) t). run_cells.
  eexists. split; [reflexivity|].
  rewrite piece_at_cell by exact Hv. cbn [squares]. cells.
Qed.

Lemma Move_eq_twin lm :
  Move_eq (mkMove (from_sq lm) (to_sq lm) (promotion lm) false false) lm = true.
Proof.
  unfold Move_eq. cbn [from_sq to_sq promotion].
  rewrite !Z.eqb_refl, bool_decide_eq_true_2 by reflexivity. reflexivity.
Qed.

(** ** Insufficient material *)

Lemma kings_split (ps : list (Z * Color * PieceType)) :
  length (List.filter is_king_piece ps)
  = (length (List.filter (fun p => is_king_piece p && Color_eqb p.1.2 WHITE) ps)
     + length (List.filter (fun p => is_king_piece p && Color_eqb p.1.2 BLACK) ps))%nat.
Proof.
  induction ps as [|[[s c] pt] ps IH]; [reflexivity|].
  cbn [List.filter]. destruct (is_king_piece (s, c, pt)); cbn [andb]; [|exact IH].
  destruct c; cbn [fst snd];
    change (Color_eqb WHITE WHITE) with true;
    change (Color_eqb WHITE BLACK) with false;
    change (Color_eqb BLACK WHITE) with false;
    change (Color_eqb BLACK BLACK) with true;
    cbn [length]; lia.
Qed.

Lemma pieces_split (ps : list (Z * Color * PieceType)) :
  length ps
  = (length (List.filter is_king_piece ps) + length (List.filter (fun p => negb (is_king_piece p)) ps))%nat.
Proof.
  induction ps as [|p ps IH]; [reflexivity|].
  cbn [List.filter].   destruct (is_king_piece p); cbn; lia.
Qed.

Lemma minor_among_others (ps : list (Z * Color * PieceType)) :
  existsb (fun p : (Z * Color * PieceType) => is_minor p.2) ps
  = existsb (fun p : (Z * Color * PieceType) => is_minor p.2) (List.filter (fun p => negb (is_king_piece p)) ps).
Proof.
  induction ps as [|[[s c] pt] ps IH]; [reflexivity|].
  cbn [List.filter existsb]. unfold is_king_piece.
  destruct pt; cbn; rewrite IH; reflexivity.
Qed.

Lemma bishops_among_others (ps : list (Z * Color * PieceType)) :
  bishops_of ps = bishops_of (List.filter (fun p => negb (is_king_piece p)) ps).
Proof.
  unfold bishops_of.
  induction ps as [|[[s c] pt] ps IH]; [reflexivity|].
  cbn [List.filter flat_map]. unfold is_king_piece.
  destruct pt; cbn; rewrite IH; reflexivity.
Qed.


Lemma Color_neqb a b : negb (Color_eqb a b) = true <-> a <> b.
Proof.
  unfold Color_eqb. rewrite negb_true_iff. split.
  - intros H. apply bool_decide_eq_false_1 in H. exact H.
  - intros H. apply bool_decide_eq_false_2. exact H.
Qed.

Lemma insufficient_material_iff gs :
  one_king_each (board gs) ->
  _is_insufficient_material gs = true <-> spec_insufficient_material (board gs).
Proof.
  intros [Hw Hb]. unfold _is_insufficient_material, spec_insufficient_material,
    others_of, kings_of in *.
  set (ps := pieces_of (board gs)) in *.
  pose proof (pieces_split ps) as Hlen.
  rewrite kings_split, Hw, Hb in Hlen.
  rewrite minor_among_others, bishops_among_others.
  destruct (List.filter (fun p => negb (is_king_piece p)) ps)
    as [|[[s1 c1] p1] [|[[s2 c2] p2] [|q rest]]] eqn:Hnk;
    rewrite Hlen; cbn [length Nat.add Nat.eqb andb existsb orb fst snd].
  - split; [auto|reflexivity].
  - rewrite orb_false_r. split.
    + intros H. right. left. exists s1, c1, p1. split; [reflexivity|].
      destruct p1; try discriminate; auto.
    + intros [H|[(s & c & pt & [= -> -> ->] & [->| ->])|(? & ? & ? & ? & H & _)]];
        try discriminate; reflexivity.
  - split.
    + intros H. right. right.
      destruct p1, p2; cbn in H; try discriminate.
      apply andb_prop in H. destruct H as [H1 H2].
      apply Color_neqb in H1. apply Z.eqb_eq in H2.
      exists s1, c1, s2, c2. auto.
    + intros [H|[(? & ? & ? & H & _)|(a1 & d1 & a2 & d2 & [= -> -> -> -> -> ->] & Hc & Hs)]];
        try discriminate.
      cbn. apply andb_true_intro. split; [apply Color_neqb; exact Hc|].
      apply Z.eqb_eq. exact Hs.
  - split; [discriminate|].
    intros [H|[(? & ? & ? & H & _)|(? & ? & ? & ? & H & _)]]; discriminate.
Qed.

(** ** The session's move entry *)

Lemma find_match_spec from to promo_pt legal lm :
  find_match from to promo_pt legal = Some lm ->
  In lm legal /\ from_sq lm = from /\ to_sq lm = to /\ promotion lm = promo_pt.
Proof.
  unfold find_match. intros H. apply find_some in H. destruct H as [Hin H].
  apply andb_prop in H. destruct H as [H H3]. apply andb_prop in H.
  destruct H as [H1 H2]. apply Z.eqb_eq in H1, H2.
  apply bool_decide_eq_true_1 in H3. auto.
Qed.

(** C8 (amended). The promotion string is resolved by piece name: a string
    whose upper-case form is QUEEN, ROOK, BISHOP or KNIGHT gives that piece
    type, and every other string, like an absent one, gives no promotion.
    A move entered through the session is accepted only if an entry of the
    legal-move list has the given from-square and to-square and the
    resolved promotion. *)
Theorem promotion_resolved_by_name :
  (forall p name pt,
      In (name, pt) PROMOTION_NAMES -> upper p = name ->
      resolve_promotion (Some p) = Some pt)
  /\ (forall p,
         is_ascii p = true ->
         (forall name pt, In (name, pt) PROMOTION_NAMES -> upper p <> name) ->
         resolve_promotion (Some p) = None)
  /\ resolve_promotion None = None
  /\ (forall game from to promo msg game',
         GameSession_make_move game from to promo = Ok (true, msg, game') ->
         exists l g lm,
           legal_moves game = Ok (l, g) /\ In lm l
           /\ from_sq lm = from /\ to_sq lm = to
           /\ promotion lm = resolve_promotion promo).
Proof.
  split; [|split; [|split]].
  - intros p name pt Hin Hu. unfold PROMOTION_NAMES in Hin.
    destruct p as [|c p]; cbn [resolve_promotion].
    + cbn in Hu. subst name.
      repeat (destruct Hin as [Hin|Hin]; [discriminate Hin|]). destruct Hin.
    + rewrite Hu.
      repeat (destruct Hin as [[= <- <-]|Hin]; [reflexivity|]). destruct Hin.
  - intros p _ Hno. destruct p as [|c p]; [reflexivity|].
    cbn [resolve_promotion]. unfold promo_map.
    repeat match goal with
    | |- context [String.eqb ?a ?b] =>
        destruct (String.eqb_spec a b) as [E|_];
          [exfalso; eapply Hno; [|exact E]; cbn; tauto|]
    end.
    reflexivity.
  - reflexivity.
  - intros game from to promo msg game' H. unfold GameSession_make_move in H.
    destruct (legal_moves game) as [[l g]|] eqn:Hl; cbn [bind fst snd] in H;
      [|discriminate].
    destruct (find_match from to (resolve_promotion promo) l) as [lm|] eqn:Hf;
      [|discriminate].
    apply find_match_spec in Hf. exists l, g, lm. tauto.
Qed.

(** C8 (as stated) fails: the letter [q] is not resolved to the queen, and
    the queen promotion it was meant to select is refused. *)
Lemma promotion_letter_not_resolved :
  resolve_promotion (Some "q"%string) = None
  /\ exists l g g',
       legal_moves promo_game = Ok (l, g)
       /\ In (Move_promo 8 0 QUEEN) l
       /\ GameSession_make_move promo_game 8 0 (Some "q"%string)
          = Ok (false, "Illegal move"%string, g').
Proof.
  split; [reflexivity|].
  eexists _, _, _. split; [vm_compute; reflexivity|].
  split; [left; reflexivity|]. vm_compute. reflexivity.
Qed.

Lemma promotion_resolved_by_name_witness :
  exists lm,
    from_sq lm = 8 /\ to_sq lm = 0
    /\ promotion lm = resolve_promotion (Some "Queen"%string).
Proof.
  destruct promotion_resolved_by_name as (_ & _ & _ & H).
  destruct (H promo_game 8 0 (Some "Queen"%string) EmptyString
              (snd (match GameSession_make_move promo_game 8 0 (Some "Queen"%string) with
                    | Ok r => r
                    | Raise _ => (false, EmptyString, promo_game)
                    end)))
    as (l & g & lm & _ & _ & H1 & H2 & H3).
  - vm_compute. reflexivity.
  - exists lm. auto.
Defined.

(** ** The coordinate text codec *)

Lemma ord_ascii_of_nat n :
  0 <= n < 256 -> ord (ascii_of_nat (Z.to_nat n)) = n.
Proof.
  intros H. unfold ord. rewrite nat_ascii_embedding by lia. lia.
Qed.

Lemma square_from_coord_text s :
  onb s -> square_from_name (coord_text s) = Ok s.
Proof.
  intros Hs. unfold onb in Hs. unfold square_from_name, coord_text, str_get.
  cbn [String.get bind]. unfold int_of_char.
  rewrite !ord_ascii_of_nat by (Z.div_mod_to_equations; lia).
  change (ord "a") with 97.
  destruct (Z.leb_spec 48 (48 + (8 - s / 8))); [|Z.div_mod_to_equations; lia].
  destruct (Z.leb_spec (48 + (8 - s / 8)) 57); [|Z.div_mod_to_equations; lia].
  cbn [andb bind]. f_equal. unfold sq. Z.div_mod_to_equations. lia.
Qed.

Lemma int_of_char_digit c :
  (exists d, int_of_char c = Ok d) <-> is_digit c = true.
Proof.
  unfold int_of_char, is_digit.
  destruct ((48 <=? ord c) && (ord c <=? 57)); split; eauto.
  - intros [d H]. discriminate.
  - discriminate.
Qed.

(** C9 (amended). [from_uci] returns the encoded move on well-formed
    text: the coordinate texts of two on-board squares give the move
    between them, and a fifth character adds the promotion its letter
    stands for.  It validates nothing beyond what its arithmetic needs: on
    ASCII text it raises exactly when the text has fewer than four
    characters or its second or fourth character is not a decimal digit,
    and decodes every other text. *)
Theorem from_uci_decodes :
  (forall s t,
      onb s -> onb t ->
      from_uci (coord_text s ++ coord_text t) = Ok (Move_plain s t))
  /\ (forall s t c,
         onb s -> onb t ->
         from_uci (coord_text s ++ coord_text t ++ String c EmptyString)
         = Ok (mkMove s t (_LETTER_PROMO c) false false))
  /\ (forall uci,
         is_ascii uci = true ->
         (exists e, from_uci uci = Raise e)
         <-> ((String.length uci < 4)%nat
              \/ (exists c, String.get 1 uci = Some c /\ is_digit c = false)
              \/ (exists c, String.get 3 uci = Some c /\ is_digit c = false))).
Proof.
  split; [|split].
  - intros s t Hs Ht. unfold from_uci.
    change (substring 0 2 (coord_text s ++ coord_text t)) with (coord_text s).
    change (substring 2 2 (coord_text s ++ coord_text t)) with (coord_text t).
    rewrite !square_from_coord_text by assumption. reflexivity.
  - intros s t c Hs Ht. unfold from_uci.
    change (substring 0 2 (coord_text s ++ coord_text t ++ String c EmptyString))
      with (coord_text s).
    change (substring 2 2 (coord_text s ++ coord_text t ++ String c EmptyString))
      with (coord_text t).
    rewrite !square_from_coord_text by assumption. reflexivity.
  - intros uci _. unfold from_uci, square_from_name, str_get.
    destruct uci as [|a [|b [|c [|d rest]]]]; cbn [substring String.get bind String.length].
    + split; [intros _; left; lia | eauto].
    + split; [intros _; left; lia | eauto].
    + split; [intros _; left; lia|].
      intros _. destruct (int_of_char b); cbn [bind]; eauto.
    + split; [intros _; left; lia|].
      intros _. destruct (int_of_char b); cbn [bind]; eauto.
    + pose proof (int_of_char_digit b) as Hb. pose proof (int_of_char_digit d) as Hd.
      destruct (int_of_char b) as [vb|eb]; cbn [bind].
      * destruct (int_of_char d) as [vd|ed]; cbn [bind].
        -- assert (is_digit b = true) as Eb by (apply Hb; eauto).
           assert (is_digit d = true) as Ed by (apply Hd; eauto).
           split.
           ++ intros [e H]. exfalso.
              destruct rest as [|x [|y rest]]; cbn in H; discriminate.
           ++ intros [H|[(x & [= <-] & H)|(x & [= <-] & H)]]; [lia|congruence|congruence].
        -- split; [|eauto]. intros _. right. right. exists d. split; [reflexivity|].
           destruct (is_digit d); [|reflexivity].
           destruct Hd as [_ Hd]. destruct (Hd eq_refl). discriminate.
      * split; [|eauto]. intros _. right. left. exists b. split; [reflexivity|].
        destruct (is_digit b); [|reflexivity].
        destruct Hb as [_ Hb]. destruct (Hb eq_refl). discriminate.
Qed.

(** C9 (as stated) fails: malformed texts are decoded without any
    failure, a file letter and rank digit off the board as well as surplus
    characters. *)
Lemma from_uci_accepts_malformed :
  from_uci "z9z9"%string = Ok (Move_plain 17 17)
  /\ from_uci "e2e4xyz"%string = Ok (Move_plain 52 36)
  /\ from_uci "i0a1"%string = Ok (Move_plain 72 56).
Proof. repeat split. Qed.

Lemma from_uci_decodes_witness :
  from_uci "e7e8q"%string = Ok (Move_promo 12 4 QUEEN).
Proof.
  destruct from_uci_decodes as (_ & H & _).
  apply (H 12 4 "q"%char); unfold onb; lia.
Defined.

(** ** The searcher *)

Lemma search_without_moves ev d gs n alpha beta maximizing b' :
  generate_legal_moves (board gs) = Ok ([], b') ->
  _search ev d gs n alpha beta maximizing
  = Ok (if is_in_check b' (turn b')
        then (if maximizing then _INF else - _INF) else 0,
        set_board gs b', n + 1).
Proof.
  intros H. destruct d; cbn [_search]; rewrite H; cbn [bind fst snd set_board board];
    destruct (is_in_check b' (turn b')); reflexivity.
Qed.

(** C1 (the code at the failing inputs). In the back-rank mate with Black
    to move and mated, [_search] called with [maximizing] false returns
    [-_INF], the extreme in Black's favour; in the mirrored mate of White,
    called with [maximizing] true, it returns [+_INF], the extreme in
    White's favour.  The stalemate is scored 0. *)
Theorem search_mate_score_sign :
  (turn (board black_mated) = BLACK
   /\ is_in_check (board black_mated) BLACK = true
   /\ score_of (_search material_evaluate 0 black_mated 0 (- _INF) _INF false)
      = Ok (- _INF))
  /\ (turn (board white_mated) = WHITE
      /\ is_in_check (board white_mated) WHITE = true
      /\ score_of (_search material_evaluate 0 white_mated 0 (- _INF) _INF true)
         = Ok _INF)
  /\ (turn (board black_stalemated) = BLACK
      /\ is_in_check (board black_stalemated) BLACK = false
      /\ score_of
           (_search material_evaluate 0 black_stalemated 0 (- _INF) _INF false)
         = Ok 0).
Proof.
  repeat split; vm_compute; reflexivity.
Qed.

Lemma insert_by_key_In key x l m :
  In m (insert_by_key key x l) <-> m = x \/ In m l.
Proof.
  induction l as [|y ys IH]; cbn [insert_by_key].
  - cbn. intuition congruence.
  - destruct (key x <=? key y); cbn [In] in *; [intuition congruence|].
    rewrite IH. intuition congruence.
Qed.

Lemma order_moves_In gs l m : In m (_order_moves gs l) <-> In m l.
Proof.
  unfold _order_moves. induction l as [|x l IH]; [reflexivity|].
  cbn [foldr]. rewrite insert_by_key_In, IH. cbn. intuition congruence.
Qed.

Lemma best_move_loop_member ev d mx moves best bs alpha beta gs n r gs' n' :
  best_move_loop ev d mx moves best bs alpha beta gs n = Ok (r, gs', n') ->
  r = best \/ exists m, r = Some m /\ In m moves.
Proof.
  revert best bs alpha beta gs n.
  induction moves as [|move rest IH]; intros best bs alpha beta gs n H;
    cbn [best_move_loop] in H.
  - injection H as <- _ _. auto.
  - destruct (make_move (board gs) move); cbn [bind] in H; [|discriminate].
    destruct (_search _ _ _ _ _ _ _) as [[[v g1] n1]|]; cbn [bind fst snd] in H;
      [|discriminate].
    destruct (undo_move (board g1)); cbn [bind] in H; [|discriminate].
    destruct mx; apply IH in H;
      (destruct H as [-> | (m & -> & Hm)];
       [ match goal with
         | |- context [if ?c then _ else _] => destruct c
         end; [right; exists move; split; [reflexivity|left; reflexivity] | left; reflexivity]
       | right; exists m; split; [reflexivity|right; exact Hm] ]).
Qed.

(** What does hold of [best_move]: a move it returns is in the list the
    generator gives for the position, and with no legal move it returns
    none. *)
Lemma best_move_sound self gs r gs' self' legal b' :
  generate_legal_moves (board gs) = Ok (legal, b') ->
  best_move self gs = Ok (r, gs', self') ->
  (legal = [] -> r = None) /\ (forall m, r = Some m -> In m legal).
Proof.
  intros Hg H. unfold best_move in H. rewrite Hg in H. cbn [bind fst snd] in H.
  destruct legal as [|m0 legal].
  - injection H as <- _ _. split; [reflexivity | discriminate].
  - split; [discriminate|]. intros m ->.
    destruct (depth self <? 1); [discriminate|].
    match type of H with
    | bind ?c _ = _ => destruct c as [[[o g1] n1]|] eqn:E; cbn [bind fst snd] in H;
                         [|discriminate]
    end.
    injection H as -> _ _.
    apply best_move_loop_member in E.
    destruct E as [[=] | (m' & [= <-] & Hin)].
    apply order_moves_In in Hin. exact Hin.
Qed.

(** C5 (the code at the failing input). With one legal move on the board,
    the mating capture Bg1xf2, [best_move] at depth 1, 2 and 3 returns
    none. *)
Theorem best_move_none_despite_legal_move :
  legal_list (generate_legal_moves (board only_move_mates))
  = Ok [Move_plain 62 53]
  /\ chosen_move (best_move (mkSearcher material_evaluate 1 0) only_move_mates)
     = Ok None
  /\ chosen_move (best_move (mkSearcher material_evaluate 2 0) only_move_mates)
     = Ok None
  /\ chosen_move (best_move (mkSearcher material_evaluate 3 0) only_move_mates)
     = Ok None.
Proof.
  repeat split; vm_compute; reflexivity.
Qed.

(** ** Closed instances *)

Lemma play_committed z moves : forall gs hs gs' hs',
  committed z hs gs -> play gs hs moves = Some (gs', hs') ->
  committed z hs' gs'.
Proof.
  induction moves as [|m rest IH]; intros gs hs gs' hs' Hc H; cbn [play] in H.
  - injection H as <- <-. exact Hc.
  - destruct (GameState_make_move gs m) as [[[|] g1]|] eqn:E; try discriminate.
    pose proof (committed_move z hs gs m g1 Hc E) as Hc1.
    destruct (committed_inv _ _ _ Hc1) as (_ & Hz & _).
    rewrite Hz in H. exact (IH _ _ _ _ Hc1 H).
Qed.

Ltac pick_in := repeat (first [left; reflexivity | right]).

(** Runs the generator on a closed board and finds [m] in its list. *)
Ltac generated b m Hg Hin :=
  eassert (generate_legal_moves b = Ok (_, _)) as Hg
    by (vm_compute; reflexivity);
  match type of Hg with
  | _ = Ok (?l, _) => assert (In m l) as Hin by (vm_compute; pick_in)
  end.

Lemma make_then_undo_restores_witness :
  exists b1,
    make_move (board castle_game) (Move_castle 60 62) = Ok b1
    /\ undo_move b1 = Ok (board castle_game).
Proof.
  assert (wf_board (board castle_game)) as Hwf by (vm_compute; reflexivity).
  generated (board castle_game) (Move_castle 60 62) Hg Hin.
  exact (proj2 (make_then_undo_restores _ _ _ _ Hwf Hg Hin)).
Defined.

Lemma legal_moves_keep_king_safe_witness :
  exists b1 king_sq,
    make_move (board ep_game) (Move_ep 28 19) = Ok b1
    /\ find_king b1 WHITE = Some king_sq
    /\ _is_attacked b1 king_sq BLACK = false.
Proof.
  assert (wf_board (board ep_game)) as Hwf by (vm_compute; reflexivity).
  generated (board ep_game) (Move_ep 28 19) Hg Hin.
  exact (legal_moves_keep_king_safe _ _ _ _ Hwf Hg Hin).
Defined.

Lemma threefold_on_third_occurrence_witness :
  GameState_make_move seventh_ply_game (Move_plain 21 6)
  = Ok (true, eighth_ply_game)
  /\ result eighth_ply_game = DRAW
  /\ draw_reason eighth_ply_game = Some THREEFOLD.
Proof.
  assert (committed sample_hasher seventh_ply_hashes seventh_ply_game) as Hc.
  { apply (play_committed sample_hasher
             (knight_cycle ++ [Move_plain 62 45; Move_plain 6 21; Move_plain 45 62])
             new_game [hash_board sample_hasher start_board]
             seventh_ply_game seventh_ply_hashes (committed_init sample_hasher)).
    vm_compute. reflexivity. }
  assert (GameState_make_move seventh_ply_game (Move_plain 21 6)
          = Ok (true, eighth_ply_game)) as Hm by (vm_compute; reflexivity).
  split; [exact Hm|].
  destruct (threefold_on_third_occurrence sample_hasher seventh_ply_hashes
              seventh_ply_game (Move_plain 21 6) eighth_ply_game Hc Hm)
    as (l & Hl & _ & H & _).
  assert (l <> []) as Hne.
  { intros ->. vm_compute in Hl. discriminate Hl. }
  apply H; [exact Hne | vm_compute; reflexivity | vm_compute; repeat constructor].
Defined.

(** ** The loop bound of the rays is never reached *)

Lemma room_step dr dc r c :
  unit_step dr dc -> on_board r c = true -> on_board (r + dr) (c + dc) = true ->
  room dr dc (r + dr) (c + dc) = room dr dc r c - 1.
Proof.
  unfold unit_step, room. intros (Hr & Hc & Hnz) H1 H2.
  apply on_board_spec in H1, H2.
  destruct (Z.ltb_spec 0 dr); [lia|].
  destruct (Z.ltb_spec dr 0); [lia|].
  destruct (Z.ltb_spec 0 dc); lia.
Qed.

Lemma room_nonneg dr dc r c : on_board r c = true -> 0 <= room dr dc r c <= 7.
Proof.
  unfold room. intros H. apply on_board_spec in H.
  destruct (0 <? dr); [lia|]. destruct (dr <? 0); [lia|].
  destruct (0 <? dc); lia.
Qed.

Lemma slide_fuel_step b s color dr dc :
  unit_step dr dc ->
  forall fuel r c,
    (on_board r c = true -> room dr dc r c < Z.of_nat fuel) ->
    slide (S fuel) b s color dr dc r c = slide fuel b s color dr dc r c.
Proof.
  intros Hu. induction fuel as [|fuel IH]; intros r c Hroom.
  - cbn [slide]. destruct (on_board r c) eqn:Hb; [|reflexivity].
    pose proof (room_nonneg dr dc r c Hb). specialize (Hroom eq_refl). lia.
  - change (slide (S (S fuel)) b s color dr dc r c)
      with (if on_board r c then
              match piece_at b (sq r c) with
              | None => Move_plain s (sq r c)
                        :: slide (S fuel) b s color dr dc (r + dr) (c + dc)
              | Some (tc, _) =>
                  if negb (Color_eqb tc color) then [Move_plain s (sq r c)] else []
              end
            else []).
    cbn [slide]. destruct (on_board r c) eqn:Hb; [|reflexivity].
    destruct (piece_at b (sq r c)) as [[tc tp]|]; [reflexivity|].
    f_equal. apply IH. intros Hb'.
    pose proof (room_step dr dc r c Hu Hb Hb'). specialize (Hroom eq_refl). lia.
Qed.

(** On the board a ray of [_sliding] ends by its own loop test within 8
    tests: more fuel changes nothing. *)
Lemma slide_fuel_enough b s color dr dc r c n :
  unit_step dr dc ->
  slide (n + 8) b s color dr dc r c = slide 8 b s color dr dc r c.
Proof.
  intros Hu. induction n as [|n IH]; [reflexivity|].
  cbn [Nat.add]. rewrite slide_fuel_step; [exact IH | exact Hu |].
  intros Hb. pose proof (room_nonneg dr dc r c Hb). lia.
Qed.

Lemma ray_attacked_fuel_step b by_color kinds dr dc :
  unit_step dr dc ->
  forall fuel r c,
    (on_board r c = true -> room dr dc r c < Z.of_nat fuel) ->
    ray_attacked (S fuel) b by_color kinds dr dc r c
    = ray_attacked fuel b by_color kinds dr dc r c.
Proof.
  intros Hu. induction fuel as [|fuel IH]; intros r c Hroom.
  - cbn [ray_attacked]. destruct (on_board r c) eqn:Hb; [|reflexivity].
    pose proof (room_nonneg dr dc r c Hb). specialize (Hroom eq_refl). lia.
  - change (ray_attacked (S (S fuel)) b by_color kinds dr dc r c)
      with (if on_board r c then
              match piece_at b (sq r c) with
              | Some (pc, pt) =>
                  Color_eqb pc by_color && existsb (PieceType_eqb pt) kinds
              | None =>
                  ray_attacked (S fuel) b by_color kinds dr dc (r + dr) (c + dc)
              end
            else false).
    cbn [ray_attacked]. destruct (on_board r c) eqn:Hb; [|reflexivity].
    destruct (piece_at b (sq r c)) as [[tc tp]|]; [reflexivity|].
    apply IH. intros Hb'.
    pose proof (room_step dr dc r c Hu Hb Hb'). specialize (Hroom eq_refl). lia.
Qed.

(** The same for the slider rays of [_is_attacked]. *)
Lemma ray_attacked_fuel_enough b by_color kinds dr dc r c n :
  unit_step dr dc ->
  ray_attacked (n + 8) b by_color kinds dr dc r c
  = ray_attacked 8 b by_color kinds dr dc r c.
Proof.
  intros Hu. induction n as [|n IH]; [reflexivity|].
  cbn [Nat.add]. rewrite ray_attacked_fuel_step; [exact IH | exact Hu |].
  intros Hb. pose proof (room_nonneg dr dc r c Hb). lia.
Qed.

Lemma slider_directions_unit d :
  In d (_DIAG ++ _ORTH) -> unit_step d.1 d.2.
Proof.
  unfold unit_step. cbn. intros H.
  repeat (destruct H as [<-|H]; [cbn; lia|]). destruct H.
Qed.
(* ===================================================================== *)
(** * Further properties of the code *)
(* ===================================================================== *)

(** ** What [make_move] does to the scalars, for any move *)

Lemma make_move_inv b m b1 :
  make_move b m = Ok b1 ->
  exists color pt captured,
    getitem (squares b) (from_sq m) = Ok (Some (color, pt))
    /\ getitem (squares b) (to_sq m) = Ok captured
    /\ length (squares b1) = length (squares b)
    /\ turn b1 = other color
    /\ castling_rights b1
       = (let r0 := castling_rights b in
          let r1 := match pt, color with
                    | KING, WHITE => mkRights false false (bk r0) (bq r0)
                    | KING, BLACK => mkRights (wK r0) (wQ r0) false false
                    | _, _ => r0
                    end in
          let r2 := match pt with
                    | ROOK => _rook_castling_update r1 (from_sq m)
                    | _ => r1
                    end in
          match captured with
          | Some _ => _rook_castling_update r2 (to_sq m)
          | None => r2
          end)
    /\ ep_square b1
       = (if is_pawn pt then
            if Z.abs (to_sq m / 8 - from_sq m / 8) =? 2
            then Some (((from_sq m / 8 + to_sq m / 8) / 2) * 8 + from_sq m mod 8)
            else None
          else None)
    /\ halfmove_clock b1
       = (if is_pawn pt || bool_decide (captured <> None) || is_en_passant m
          then 0 else halfmove_clock b + 1)
    /\ fullmove_number b1
       = (match color with
          | BLACK => fullmove_number b + 1
          | WHITE => fullmove_number b
          end)
    /\ exists epc,
         _history b1
         = mkUndo m captured epc (castling_rights b) (ep_square b)
             (halfmove_clock b) (fullmove_number b) :: _history b.
Proof.
  unfold make_move. intros H.
  destruct (getitem (squares b) (from_sq m)) as [[[color pt]|]|]; cbn [bind] in H;
    [|discriminate|discriminate].
  destruct (getitem (squares b) (to_sq m)) as [captured|]; cbn [bind] in H;
    [|discriminate].
  match type of H with
  | bind ?c _ = _ => destruct c as [[epc s1]|] eqn:E1; cbn [bind] in H; [|discriminate]
  end.
  assert (length s1 = length (squares b)) as L1.
  { destruct (is_en_passant m).
    - destruct (getitem _ _); cbn [bind] in E1; [|discriminate].
      destruct (setitem _ _ _) as [s|] eqn:E; cbn [bind] in E1; [|discriminate].
      injection E1 as _ <-. apply setitem_length in E. congruence.
    - injection E1 as _ <-. reflexivity. }
  destruct (setitem s1 _ _) as [s2|] eqn:E2; cbn [bind] in H; [|discriminate].
  destruct (setitem s2 _ _) as [s3|] eqn:E3; cbn [bind] in H; [|discriminate].
  match type of H with
  | bind ?c _ = _ => destruct c as [s4|] eqn:E4; cbn [bind] in H; [|discriminate]
  end.
  match type of H with
  | bind ?c _ = _ => destruct c as [s5|] eqn:E5; cbn [bind] in H; [|discriminate]
  end.
  injection H as <-. cbn [squares turn castling_rights ep_square halfmove_clock
                           fullmove_number _history].
  apply setitem_length in E2, E3.
  assert (length s4 = length s3) as L4.
  { destruct (promotion m); [apply setitem_length in E4; exact E4|congruence]. }
  assert (length s5 = length s4) as L5.
  { destruct (is_castle m); [apply castle_rook_length in E5; exact E5|congruence]. }
  exists color, pt, captured. repeat split; try reflexivity; [congruence|eauto].
Qed.



Lemma rights_le_refl a : rights_le a a.
Proof. unfold rights_le. tauto. Qed.

Lemma relocate_length' l l' a c :
  relocate l a c = Ok l' -> length l' = length l.
Proof. apply relocate_length. Qed.






(** ** Where generated moves start, and the double push *)

Lemma pawn_moves_src b s color m :
  In m (_pawn_moves b s color) -> from_sq m = s.
Proof.
  unfold _pawn_moves, row_col, _PROMOTIONS. intros H.
  cbn [flat_map fmap list_fmap app] in H.
  destruct color; split_in; reflexivity.
Qed.

Lemma delta_moves_src deltas b s color m :
  In m (delta_moves deltas b s color) -> from_sq m = s.
Proof.
  unfold delta_moves, row_col. intros H.
  apply in_flat_map in H. destruct H as (d & _ & H). split_in. reflexivity.
Qed.

Lemma sliding_src b s color dirs m :
  In m (_sliding b s color dirs) -> from_sq m = s.
Proof.
  unfold _sliding, row_col. intros H.
  apply in_flat_map in H. destruct H as (d & _ & H).
  apply slide_shape in H. destruct H as (k & _ & _ & ->). reflexivity.
Qed.

Lemma moves_from_src b color s m :
  In m (moves_from b color s) ->
  from_sq m = s /\ exists pt, piece_at b s = Some (color, pt).
Proof.
  unfold moves_from. intros H.
  destruct (piece_at b s) as [[c pt]|] eqn:Hp; [|destruct H].
  destruct (Color_eqb c color) eqn:Hc; cbn [negb] in H; [|destruct H].
  apply Color_eqb_eq in Hc. subst c. split; [|eauto].
  destruct pt;
    eauto using pawn_moves_src, delta_moves_src, sliding_src.
Qed.

Lemma pseudo_legal_src b color m :
  In m (_pseudo_legal b color) ->
  0 <= from_sq m < 64 /\ In m (moves_from b color (from_sq m)).
Proof.
  unfold _pseudo_legal. intros H. apply in_flat_map in H.
  destruct H as (s & Hs & H). apply in_range64 in Hs.
  destruct (moves_from_src _ _ _ _ H) as [-> _]. auto.
Qed.

Lemma pawn_double_push b s color m :
  0 <= s < 64 -> In m (_pawn_moves b s color) ->
  Z.abs (to_sq m / 8 - s / 8) = 2 ->
  m = Move_plain s (s + 16 * pawn_direction color)
  /\ onb (s + 16 * pawn_direction color)
  /\ piece_at b (s + 8 * pawn_direction color) = None
  /\ piece_at b (s + 16 * pawn_direction color) = None.
Proof.
  intros Hs H Habs. destruct (rc_facts s Hs) as (Hrc & Hr & Hc).
  unfold _pawn_moves, row_col, _PROMOTIONS in H.
  cbn [flat_map fmap list_fmap app] in H.
  destruct color; cbn [pawn_direction]; split_in; facts;
    cbn [to_sq Move_plain Move_promo Move_ep] in Habs;
    try (exfalso; unfold sq in *; Z.div_mod_to_equations; lia).
  all: repeat split;
    try (f_equal; unfold sq; Z.div_mod_to_equations; lia);
    try (unfold onb; lia);
    match goal with
    | Hp : piece_at _ ?x = None |- piece_at _ ?y = None =>
        replace y with x by (unfold sq; Z.div_mod_to_equations; lia); exact Hp
    end.
Qed.

Lemma moves_from_not_castle b color s m :
  In m (moves_from b color s) -> is_castle m = false.
Proof.
  unfold moves_from. intros H.
  destruct (piece_at b s) as [[c pt]|]; [|destruct H].
  destruct (negb (Color_eqb c color)); [destruct H|].
  destruct pt.
  - unfold _pawn_moves, row_col, _PROMOTIONS in H.
    cbn [flat_map fmap list_fmap app] in H.
    destruct color; split_in; reflexivity.
  - unfold _knight_moves, delta_moves, row_col in H.
    apply in_flat_map in H. destruct H as (d & _ & H). split_in. reflexivity.
  - unfold _sliding, row_col in H. apply in_flat_map in H.
    destruct H as (d & _ & H). apply slide_shape in H.
    destruct H as (k & _ & _ & ->). reflexivity.
  - unfold _sliding, row_col in H. apply in_flat_map in H.
    destruct H as (d & _ & H). apply slide_shape in H.
    destruct H as (k & _ & _ & ->). reflexivity.
  - unfold _sliding, row_col in H. apply in_flat_map in H.
    destruct H as (d & _ & H). apply slide_shape in H.
    destruct H as (k & _ & _ & ->). reflexivity.
  - unfold _king_moves, delta_moves, row_col in H.
    apply in_flat_map in H. destruct H as (d & _ & H). split_in. reflexivity.
Qed.

Lemma pseudo_not_castle b color m :
  In m (_pseudo_legal b color) -> is_castle m = false.
Proof.
  unfold _pseudo_legal. intros H. apply in_flat_map in H.
  destruct H as (s & _ & H). eapply moves_from_not_castle; eauto.
Qed.

Ltac bools :=
  repeat match goal with
  | H : _ && _ = true |- _ => apply andb_prop in H; destruct H
  | H : bool_decide _ = true |- _ => apply bool_decide_eq_true_1 in H
  | H : negb _ = true |- _ => apply negb_true_iff in H
  end.

Lemma castling_moves_spec b color m :
  In m (_castling_moves b color) ->
  (color = WHITE /\ m = Move_castle 60 62
   /\ castle_conditions b WHITE (wK (castling_rights b)) 60 63 [61; 62] [60; 61; 62])
  \/ (color = WHITE /\ m = Move_castle 60 58
      /\ castle_conditions b WHITE (wQ (castling_rights b)) 60 56 [59; 58; 57]
           [60; 59; 58])
  \/ (color = BLACK /\ m = Move_castle 4 6
      /\ castle_conditions b BLACK (bk (castling_rights b)) 4 7 [5; 6] [4; 5; 6])
  \/ (color = BLACK /\ m = Move_castle 4 2
      /\ castle_conditions b BLACK (bq (castling_rights b)) 4 0 [3; 2; 1] [4; 3; 2]).
Proof.
  unfold _castling_moves, is_empty, castle_conditions. sq_consts. intros H.
  destruct color; cbn [other] in *.
  - destruct (bool_decide (piece_at b 60 = Some (WHITE, KING))) eqn:Hk;
      cbn [negb] in H; [|destruct H].
    split_in; bools.
    + left. repeat split; auto; cbn [In]; intros s Hs;
        repeat (destruct Hs as [<-|Hs]; [assumption|]); destruct Hs.
    + right. left. repeat split; auto; cbn [In]; intros s Hs;
        repeat (destruct Hs as [<-|Hs]; [assumption|]); destruct Hs.
  - destruct (bool_decide (piece_at b 4 = Some (BLACK, KING))) eqn:Hk;
      cbn [negb] in H; [|destruct H].
    split_in; bools.
    + right. right. left. repeat split; auto; cbn [In]; intros s Hs;
        repeat (destruct Hs as [<-|Hs]; [assumption|]); destruct Hs.
    + right. right. right. repeat split; auto; cbn [In]; intros s Hs;
        repeat (destruct Hs as [<-|Hs]; [assumption|]); destruct Hs.
Qed.

Lemma legal_in_generated b legal b' m :
  wf_board b -> generate_legal_moves b = Ok (legal, b') -> In m legal ->
  In m (_pseudo_legal b (turn b)) \/ In m (_castling_moves b (turn b)).
Proof.
  intros Hwf H Hm. apply generate_legal_moves_spec in H; [|exact Hwf].
  injection H as -> ->. apply filter_In in Hm. destruct Hm as [Hm _].
  apply in_app_or in Hm. exact Hm.
Qed.


(** ** [find_king] *)

Lemma find_king_from_cons p rest s color :
  find_king_from (p :: rest) s color
  = if bool_decide (p = Some (color, KING)) then Some s
    else find_king_from rest (s + 1) color.
Proof.
  destruct p as [[c pt]|]; cbn [find_king_from];
    [|rewrite bool_decide_eq_false_2 by discriminate; reflexivity].
  destruct pt; try (rewrite bool_decide_eq_false_2 by congruence; reflexivity).
  unfold Color_eqb. destruct (decide (c = color)) as [->|Hne].
  - rewrite !bool_decide_eq_true_2 by reflexivity. reflexivity.
  - rewrite !bool_decide_eq_false_2 by congruence. reflexivity.
Qed.

Lemma find_king_from_spec sqs color : forall s,
  match find_king_from sqs s color with
  | Some k =>
      exists n, k = s + Z.of_nat n /\ sqs !! n = Some (Some (color, KING))
                /\ forall j, (j < n)%nat -> sqs !! j <> Some (Some (color, KING))
  | None => forall j, sqs !! j <> Some (Some (color, KING))
  end.
Proof.
  induction sqs as [|p rest IH]; intros s.
  - cbn. intros j. rewrite lookup_nil. discriminate.
  - rewrite find_king_from_cons.
    destruct (bool_decide (p = Some (color, KING))) eqn:E.
    + apply bool_decide_eq_true_1 in E. subst p. exists 0%nat.
      split; [lia|]. split; [reflexivity|]. intros j Hj. lia.
    + apply bool_decide_eq_false_1 in E. specialize (IH (s + 1)).
      destruct (find_king_from rest (s + 1) color) as [k|].
      * destruct IH as (n & -> & Hn & Hlt). exists (S n).
        split; [lia|]. split; [exact Hn|]. intros [|j] Hj; cbn.
        -- congruence.
        -- apply Hlt. lia.
      * intros [|j]; cbn; [congruence|apply IH].
Qed.

Lemma piece_at_lookup b j p :
  piece_at b j = Some p
  <-> 0 <= j < 64 /\ squares b !! Z.to_nat j = Some (Some p).
Proof.
  unfold piece_at.
  destruct (Z.leb_spec 0 j); destruct (Z.ltb_spec j 64); cbn [andb];
    try (split; [discriminate|lia]).
  destruct (squares b !! Z.to_nat j) as [[q|]|]; cbn; split;
    try discriminate; try (intros [_ ?]; congruence).
  - intros [= ->]. auto with zarith.
Qed.

Lemma find_king_spec b color :
  match find_king b color with
  | Some k =>
      onb k /\ piece_at b k = Some (color, KING)
      /\ forall j, j < k -> piece_at b j <> Some (color, KING)
  | None => forall j, piece_at b j <> Some (color, KING)
  end.
Proof.
  unfold find_king.
  pose proof (find_king_from_spec (firstn 64 (squares b)) color 0) as H.
  destruct (find_king_from (firstn 64 (squares b)) 0 color) as [k|].
  - destruct H as (n & -> & Hn & Hlt).
    apply lookup_take_Some in Hn. destruct Hn as [Hn Hn64].
    split; [unfold onb; lia|]. split.
    + apply piece_at_lookup. rewrite Z.add_0_l, Nat2Z.id. split; [lia|exact Hn].
    + intros j Hj Hp. apply piece_at_lookup in Hp. destruct Hp as [Hr Hp].
      apply (Hlt (Z.to_nat j)); [lia|].
      rewrite lookup_take_lt by lia. exact Hp.
  - intros j Hp. apply piece_at_lookup in Hp. destruct Hp as [Hr Hp].
    apply (H (Z.to_nat j)). rewrite lookup_take_lt by lia. exact Hp.
Qed.

Lemma find_king_has_king b color :
  find_king b color <> None <-> has_king b color.
Proof.
  pose proof (find_king_spec b color) as H. unfold has_king. split.
  - destruct (find_king b color) as [k|]; [|congruence].
    intros _. exists k. tauto.
  - intros (k & _ & Hk) E. rewrite E in H. exact (H k Hk).
Qed.

(** ** Where generated moves land *)


Lemma is_enemy_free_or_enemy color t :
  is_enemy color t = true -> free_or_enemy color t = true.
Proof. destruct t as [[c pt]|]; [auto|discriminate]. Qed.

Lemma slide_target fuel b s color dr dc : forall r c m,
  In m (slide fuel b s color dr dc r c) ->
  is_en_passant m = false /\ free_or_enemy color (piece_at b (to_sq m)) = true.
Proof.
  induction fuel as [|fuel IH]; intros r c m H; cbn [slide] in H; [destruct H|].
  destruct (on_board r c); [|destruct H].
  destruct (piece_at b (sq r c)) as [[tc tp]|] eqn:Hp.
  - destruct (negb (Color_eqb tc color)) eqn:Hc; [|destruct H].
    destruct H as [<-|[]]. cbn [Move_plain is_en_passant to_sq].
    rewrite Hp. cbn. auto.
  - destruct H as [<-|H]; [|eauto].
    cbn [Move_plain is_en_passant to_sq]. rewrite Hp. auto.
Qed.

Lemma pawn_moves_target b s color m :
  In m (_pawn_moves b s color) ->
  if is_en_passant m
  then ep_square b = Some (to_sq m)
       /\ is_enemy color (piece_at b (to_sq m)) = false
       /\ Z.abs (to_sq m / 8 - s / 8) = 1
  else free_or_enemy color (piece_at b (to_sq m)) = true.
Proof.
  unfold _pawn_moves, row_col, _PROMOTIONS. intros H.
  cbn [flat_map fmap list_fmap app] in H.
  destruct color; split_in; facts;
    cbn [Move_plain Move_promo Move_ep is_en_passant to_sq];
    repeat match goal with
    | H : bool_decide _ = true |- _ => apply bool_decide_eq_true_1 in H
    | H : piece_at _ ?x = None |- context [piece_at _ ?x] => rewrite H
    end;
    try reflexivity;
    try (apply is_enemy_free_or_enemy; assumption);
    (split; [assumption|]); (split; [assumption|]);
    unfold sq; Z.div_mod_to_equations; lia.
Qed.

Lemma delta_moves_target deltas b s color m :
  In m (delta_moves deltas b s color) ->
  is_en_passant m = false /\ free_or_enemy color (piece_at b (to_sq m)) = true.
Proof.
  unfold delta_moves, row_col. intros H.
  apply in_flat_map in H. destruct H as (d & _ & H). split_in.
  cbn [Move_plain is_en_passant to_sq]. auto.
Qed.

Lemma sliding_target b s color dirs m :
  In m (_sliding b s color dirs) ->
  is_en_passant m = false /\ free_or_enemy color (piece_at b (to_sq m)) = true.
Proof.
  unfold _sliding, row_col. intros H.
  apply in_flat_map in H. destruct H as (d & _ & H).
  eapply slide_target; eauto.
Qed.

Lemma moves_from_target b color s m :
  In m (moves_from b color s) ->
  if is_en_passant m
  then piece_at b s = Some (color, PAWN)
       /\ ep_square b = Some (to_sq m)
       /\ is_enemy color (piece_at b (to_sq m)) = false
       /\ Z.abs (to_sq m / 8 - s / 8) = 1
  else free_or_enemy color (piece_at b (to_sq m)) = true.
Proof.
  unfold moves_from. intros H.
  destruct (piece_at b s) as [[c pt]|] eqn:Hp; [|destruct H].
  destruct (Color_eqb c color) eqn:Hc; cbn [negb] in H; [|destruct H].
  apply Color_eqb_eq in Hc. subst c.
  destruct pt;
    try (apply delta_moves_target in H; destruct H as [-> H]; exact H);
    try (apply sliding_target in H; destruct H as [-> H]; exact H).
  apply pawn_moves_target in H. destruct (is_en_passant m); tauto.
Qed.

(** ** The mover's king outlives every generated move *)

Lemma generated_target b m :
  In m (_pseudo_legal b (turn b) ++ _castling_moves b (turn b)) ->
  if is_en_passant m then ep_square b = Some (to_sq m)
  else free_or_enemy (turn b) (piece_at b (to_sq m)) = true.
Proof.
  intros H. apply in_app_or in H. destruct H as [H|H].
  - apply pseudo_legal_src in H. destruct H as [_ H].
    apply moves_from_target in H. destruct (is_en_passant m); tauto.
  - apply castling_moves_spec in H. unfold castle_conditions in H.
    destruct H as [H|[H|[H|H]]]; destruct H as (_ & -> & _ & _ & _ & He & _);
      cbn [Move_castle is_en_passant to_sq]; rewrite He; cbn; auto.
Qed.

Lemma king_survives b m b1 :
  wf_board b -> move_ok b m ->
  (if is_en_passant m then ep_square b = Some (to_sq m)
   else free_or_enemy (turn b) (piece_at b (to_sq m)) = true) ->
  ep_clear b -> has_king b (turn b) ->
  make_move b m = Ok b1 -> has_king b1 (turn b).
Proof.
  intros Hwf Hok Htg Hep (k & Hk & Hpk) Hmk. unfold wf_board in Hwf.
  rewrite piece_at_cell in Hpk by exact Hk.
  inversion Hok as [f t pt Hf Ht Hne Hp | f t p Hf Ht Hne Hp Hpp
                   | f t pt Hf Ht Hne Hp Hv Hvf Hvt | f t r r' pt Hs Hp Hrk Hr];
    subst m; cbn [Move_plain Move_promo Move_ep Move_castle is_en_passant to_sq]
               in Htg.
  - assert (t <> k) as Htk.
    { intros ->. rewrite piece_at_cell in Htg by exact Hk.
      rewrite Hpk in Htg. cbn in Htg. unfold Color_eqb in Htg.
      rewrite bool_decide_eq_true_2 in Htg by reflexivity. discriminate. }
    rewrite piece_at_cell in Hp by exact Hf.
    revert Hmk. unfold make_move. fields. run_cells. rewrite Hp. run_cells.
    intros [= <-]. destruct (decide (k = f)) as [->|Hkf].
    + exists t. split; [exact Ht|]. rewrite piece_at_cell by exact Ht.
      cbn [squares]. cells.
    + exists k. split; [exact Hk|]. rewrite piece_at_cell by exact Hk.
      cbn [squares]. cells.
  - assert (t <> k) as Htk.
    { intros ->. rewrite piece_at_cell in Htg by exact Hk.
      rewrite Hpk in Htg. cbn in Htg. unfold Color_eqb in Htg.
      rewrite bool_decide_eq_true_2 in Htg by reflexivity. discriminate. }
    rewrite piece_at_cell in Hp by exact Hf.
    assert (k <> f) as Hkf by (intros ->; congruence).
    revert Hmk. unfold make_move. fields. run_cells. rewrite Hp. run_cells.
    intros [= <-]. exists k. split; [exact Hk|].
    rewrite piece_at_cell by exact Hk. cbn [squares]. cells.
  - destruct (Hep t Htg) as [He1 He2].
    rewrite piece_at_cell in He1 by exact Ht.
    rewrite piece_at_cell in He2 by exact Hv.
    assert (t <> k) as Htk by (intros ->; congruence).
    assert (ep_victim (turn b) t <> k) as Hvk by (intros E; rewrite E in He2; congruence).
    rewrite piece_at_cell in Hp by exact Hf.
    revert Hmk. unfold make_move. fields. run_cells. rewrite Hp.
    fold (ep_victim (turn b) t). run_cells.
    intros [= <-]. destruct (decide (k = f)) as [->|Hkf].
    + exists t. split; [exact Ht|]. rewrite piece_at_cell by exact Ht.
      cbn [squares]. cells.
    + exists k. split; [exact Hk|]. rewrite piece_at_cell by exact Hk.
      cbn [squares]. cells.
  - assert (onb f /\ onb t /\ onb r /\ onb r') as (Hf & Ht & Hr1 & Hr2)
      by (inversion Hs; unfold onb; lia).
    assert (t <> k) as Htk.
    { intros ->. rewrite piece_at_cell in Htg by exact Hk.
      rewrite Hpk in Htg. cbn in Htg. unfold Color_eqb in Htg.
      rewrite bool_decide_eq_true_2 in Htg by reflexivity. discriminate. }
    rewrite piece_at_cell in Hp by exact Hf.
    rewrite piece_at_cell in Hrk by exact Hr1.
    rewrite piece_at_cell in Hr by exact Hr2.
    assert (r <> k) as Hrk' by (intros ->; congruence).
    assert (r' <> k) as Hr' by (intros ->; congruence).
    revert Hmk. unfold make_move. fields. run_cells. rewrite Hp.
    destruct (decide (k = f)) as [->|Hkf].
    + inversion Hs; subst f t r r'; run_cells;
        unfold castle_rook, relocate; sq_consts; eqb_consts; run_cells;
        intros [= <-];
        match type of Htk with ?t <> _ => exists t end;
        (split; [exact Ht|]); rewrite piece_at_cell by exact Ht;
        cbn [squares]; cells.
    + inversion Hs; subst f t r r'; run_cells;
        unfold castle_rook, relocate; sq_consts; eqb_consts; run_cells;
        intros [= <-]; exists k; (split; [exact Hk|]);
        rewrite piece_at_cell by exact Hk; cbn [squares]; cells.
Qed.

(** ** The generator and the result recomputation return *)

Lemma legal_filter_total b color ms :
  wf_board b -> (forall m, In m ms -> move_ok b m) ->
  (forall m b1, In m ms -> make_move b m = Ok b1 -> has_king b1 color) ->
  legal_filter b color ms = Ok (List.filter (king_safe_after b color) ms, b).
Proof.
  intros Hwf. induction ms as [|m ms IH]; intros Hok Hking; [reflexivity|].
  cbn [legal_filter].
  destruct (make_undo b m Hwf (Hok m (or_introl eq_refl))) as (b1 & Hmk & Hun).
  rewrite Hmk. cbn [bind].
  pose proof (Hking m b1 (or_introl eq_refl) Hmk) as Hk1.
  apply find_king_has_king in Hk1.
  cbn [List.filter]. unfold king_safe_after at 1. rewrite Hmk.
  destruct (find_king b1 color) as [k|]; [|congruence].
  rewrite Hun. cbn [bind].
  rewrite IH by (intros; eauto using in_cons).
  cbn [bind fst snd]. destruct (_is_attacked b1 k (other color)); reflexivity.
Qed.

Lemma generate_legal_moves_total b :
  wf_board b -> has_king b (turn b) -> ep_clear b ->
  generate_legal_moves b
  = Ok (List.filter (king_safe_after b (turn b))
          (_pseudo_legal b (turn b) ++ _castling_moves b (turn b)), b).
Proof.
  intros Hwf Hk Hep. unfold generate_legal_moves.
  assert (forall m, In m (_pseudo_legal b (turn b) ++ _castling_moves b (turn b)) ->
                    move_ok b m) as Hok.
  { intros m Hm. apply in_app_or in Hm.
    destruct Hm; [apply pseudo_legal_ok | apply castling_moves_ok]; assumption. }
  apply legal_filter_total; [exact Hwf | exact Hok |].
  intros m b1 Hm Hmk.
  exact (king_survives b m b1 Hwf (Hok m Hm) (generated_target b m Hm) Hep Hk Hmk).
Qed.

Lemma update_result_total g l :
  _cached_legal g = None -> generate_legal_moves (board g) = Ok (l, board g) ->
  _update_result g = Ok (verdict g l).
Proof.
  intros Hc Hg. unfold _update_result, legal_moves. rewrite Hc, Hg.
  cbn [bind fst snd]. unfold verdict.
  change (set_cached (set_board g (board g)) (Some l)) with (set_cached g (Some l)).
  destruct l as [|m l].
  - destruct (is_in_check _ _); reflexivity.
  - destruct (100 <=? _); [reflexivity|].
    destruct (3 <=? _); [reflexivity|].
    destruct (_is_insufficient_material _); reflexivity.
Qed.

Lemma commit_total gs m l gs1 b1 l' :
  wf_board (board gs) -> result gs = ONGOING ->
  legal_moves gs = Ok (l, gs1) -> Move_in m l = true ->
  make_move (board gs) m = Ok b1 ->
  generate_legal_moves b1 = Ok (l', b1) ->
  GameState_make_move gs m = Ok (true, verdict (after_commit gs m b1) l').
Proof.
  intros Hwf Hr Hl Hin Hmk Hg.
  destruct (legal_moves_spec gs l gs1 Hwf Hl) as [E _].
  unfold GameState_make_move.
  rewrite bool_decide_eq_true_2 by exact Hr. cbn [negb].
  rewrite Hl. cbn [bind fst snd]. rewrite Hin. cbn [negb].
  subst gs1. cbn [set_cached board _hasher _position_counts _move_history
                   result draw_reason resignation].
  rewrite Hmk. cbn [bind].
  change (_record_position
            (mkGame b1 (_hasher gs) (_position_counts gs) (_move_history gs ++ [m])
               None (result gs) (draw_reason gs) (resignation gs)))
    with (after_commit gs m b1).
  rewrite (update_result_total (after_commit gs m b1) l')
    by (try reflexivity; exact Hg).
  reflexivity.
Qed.

(** A plain move of a piece that is not a pawn moving two rows, landing
    off the other side's king, is committed when it matches the list. *)
Lemma plain_twin_commits gs l gs1 f t pt k :
  wf_board (board gs) -> result gs = ONGOING ->
  legal_moves gs = Ok (l, gs1) -> Move_in (Move_plain f t) l = true ->
  onb f -> onb t -> piece_at (board gs) f = Some (turn (board gs), pt) ->
  (pt = PAWN -> Z.abs (t / 8 - f / 8) <> 2) ->
  onb k -> piece_at (board gs) k = Some (other (turn (board gs)), KING) ->
  t <> k ->
  exists b1 gs',
    make_move (board gs) (Move_plain f t) = Ok b1
    /\ squares b1
       = <[Z.to_nat f := None]>
           (<[Z.to_nat t := Some (turn (board gs), pt)]> (squares (board gs)))
    /\ GameState_make_move gs (Move_plain f t) = Ok (true, gs')
    /\ board gs' = b1
    /\ _move_history gs' = _move_history gs ++ [Move_plain f t].
Proof.
  intros Hwf Hr Hl Hin Hf Ht Hp Hpawn Hk Hpk Htk.
  destruct (make_move_plain_squares _ f t _ pt Hwf Hf Ht Hp) as (b1 & Hb1 & Hs1).
  exists b1.
  pose proof (make_move_wf _ _ _ Hwf Hb1) as Hwf1.
  destruct (make_move_inv _ _ _ Hb1)
    as (color & pt' & captured & Hgf & _ & _ & Hturn & _ & Hepsq & _).
  cbn [Move_plain from_sq to_sq] in Hgf, Hepsq.
  unfold wf_board in Hwf. rewrite getitem_cell in Hgf by assumption.
  rewrite piece_at_cell in Hp by exact Hf.
  assert (color = turn (board gs) /\ pt' = pt) as [-> ->] by (split; congruence).
  assert (ep_square b1 = None) as Hep1.
  { rewrite Hepsq. unfold is_pawn, PieceType_eqb.
    destruct (decide (pt = PAWN)) as [E|E].
    - rewrite bool_decide_eq_true_2 by exact E.
      destruct (Z.eqb_spec (Z.abs (t / 8 - f / 8)) 2) as [E2|_]; [|reflexivity].
      exfalso. exact (Hpawn E E2).
    - rewrite bool_decide_eq_false_2 by exact E. reflexivity. }
  assert (has_king b1 (turn b1)) as Hk1.
  { rewrite Hturn. exists k. split; [exact Hk|].
    rewrite piece_at_cell by exact Hk. rewrite Hs1.
    rewrite piece_at_cell in Hpk by exact Hk.
    assert (k <> f) as Hkf.
    { intros ->. rewrite Hp in Hpk. injection Hpk as E _.
      destruct (turn (board gs)); discriminate. }
    cells. }
  assert (ep_clear b1) as Hc1 by (intros e He; congruence).
  pose proof (generate_legal_moves_total b1 Hwf1 Hk1 Hc1) as Hg1.
  eexists. split; [exact Hb1|]. split; [exact Hs1|].
  split; [exact (commit_total gs _ l gs1 b1 _ Hwf Hr Hl Hin Hb1 Hg1)|].
  match goal with
  | |- board (verdict ?g ?l') = _ /\ _ =>
      destruct (verdict_fields g l') as (Eb & _ & _ & Eh & _)
  end.
  rewrite Eb, Eh. split; reflexivity.
Qed.

(** C10. [GameState.make_move] hands the caller's own [Move] to the board.
    On an ongoing game whose board has 64 squares and holds the king of
    the side not to move, when the legal-move list holds a castling move,
    or an en-passant move whose victim square is occupied, the same move
    submitted with both flags false is found in the list, [make_move]
    returns success, and the submitted object is the one recorded and
    applied: the board of the game afterwards still has the piece that
    the listed move removes from its square (the castling rook on its
    home square, the en-passant victim), so it differs from the board the
    listed move gives. *)
Theorem flagless_twin_is_applied gs lm l b' :
  wf_board (board gs) -> result gs = ONGOING ->
  has_king (board gs) (other (turn (board gs))) ->
  generate_legal_moves (board gs) = Ok (l, b') ->
  (_cached_legal gs = None \/ _cached_legal gs = Some l) ->
  In lm l ->
  (is_castle lm = true
   \/ (is_en_passant lm = true
       /\ piece_at (board gs) (ep_victim (turn (board gs)) (to_sq lm)) <> None)) ->
  let m := mkMove (from_sq lm) (to_sq lm) (promotion lm) false false in
  Move_in m l = true
  /\ exists b1 b2 s gs',
       GameState_make_move gs m = Ok (true, gs')
       /\ board gs' = b1
       /\ _move_history gs' = _move_history gs ++ [m]
       /\ make_move (board gs) m = Ok b1
       /\ make_move (board gs) lm = Ok b2
       /\ piece_at b1 s = piece_at (board gs) s
       /\ piece_at (board gs) s <> None
       /\ piece_at b2 s = None
       /\ squares b1 <> squares b2.
Proof.
  intros Hwf Hr (k & Hk & Hpk) Hg Hc Hin Hflag m.
  assert (Move_in m l = true) as Hmem.
  { unfold Move_in. apply existsb_exists. exists lm. split; [exact Hin|].
    apply Move_eq_twin. }
  split; [exact Hmem|].
  pose proof (legal_in_generated _ _ _ _ Hwf Hg Hin) as Hgen.
  destruct (legal_move_ok _ _ _ _ Hwf Hg Hin) as (-> & Hok & _).
  assert (exists gs1, legal_moves gs = Ok (l, gs1)) as [gs1 Hl].
  { unfold legal_moves. destruct Hc as [-> | ->]; [|eauto].
    rewrite Hg. cbn [bind fst snd]. eauto. }
  assert (forall (b1 b2 : Board) s, piece_at b1 s = piece_at (board gs) s ->
            piece_at (board gs) s <> None -> piece_at b2 s = None ->
            squares b1 <> squares b2) as Hdiff.
  { intros b1 b2 s H1 H2 H3 E. apply H2. rewrite <- H1.
    unfold piece_at in *. rewrite E. exact H3. }
  inversion Hok as [f t pt Hf Ht Hne Hp E | f t p Hf Ht Hne Hp Hpp E
                   | f t pt Hf Ht Hne Hp Hv Hvf Hvt E
                   | f t r r' pt Hs Hp Hrk Hre E];
    subst lm; cbn [is_castle is_en_passant Move_plain Move_promo Move_ep
                   Move_castle to_sq] in Hflag;
    try (destruct Hflag as [?|[? _]]; discriminate).
  - (* en passant *)
    destruct Hflag as [?|[_ Hvic]]; [discriminate|].
    assert (is_enemy (turn (board gs)) (piece_at (board gs) t) = false
            /\ Z.abs (t / 8 - f / 8) = 1) as [Hen Hrow].
    { destruct Hgen as [Hps|Hcs].
      - apply pseudo_legal_src in Hps. destruct Hps as [_ Hps].
        apply moves_from_target in Hps.
        cbn [Move_ep is_en_passant to_sq from_sq] in Hps. tauto.
      - apply castling_moves_spec in Hcs.
        destruct Hcs as [H|[H|[H|H]]]; destruct H as (_ & H & _); discriminate H. }
    assert (t <> k) as Htk.
    { intros ->. rewrite Hpk in Hen. cbn in Hen.
      destruct (turn (board gs)); discriminate. }
    destruct (plain_twin_commits gs l gs1 f t pt k Hwf Hr Hl Hmem Hf Ht Hp
                ltac:(intros _; lia) Hk Hpk Htk)
      as (b1 & gs' & Hb1 & Hs1 & Hcm & Hbd & Hh).
    destruct (make_move_ep_victim _ f t pt Hwf Hf Ht Hp Hv Hvf Hvt) as (b2 & Hb2 & Hs2).
    assert (piece_at b1 (ep_victim (turn (board gs)) t)
            = piece_at (board gs) (ep_victim (turn (board gs)) t)) as Hkeep.
    { rewrite !piece_at_cell by exact Hv. rewrite Hs1.
      unfold wf_board in Hwf. cells. }
    exists b1, b2, (ep_victim (turn (board gs)) t), gs'. subst m.
    split; [exact Hcm|]. split; [exact Hbd|]. split; [exact Hh|].
    split; [exact Hb1|]. split; [exact Hb2|]. split; [exact Hkeep|].
    split; [exact Hvic|]. split; [exact Hs2|].
    exact (Hdiff b1 b2 _ Hkeep Hvic Hs2).
  - (* castling *)
    assert (onb f /\ onb t /\ onb r /\ r <> f /\ r <> t) as (Hf & Ht & Hr' & Hrf & Hrt)
      by (inversion Hs; unfold onb; lia).
    assert (pt = KING /\ piece_at (board gs) t = None) as [-> Hte].
    { destruct Hgen as [Hps|Hcs].
      - apply pseudo_not_castle in Hps. discriminate Hps.
      - apply castling_moves_spec in Hcs. unfold castle_conditions in Hcs.
        destruct Hcs as [H|[H|[H|H]]];
          destruct H as (_ & [= -> ->] & _ & Hkg & _ & Hbt & _);
          (split; [congruence | apply Hbt; cbn [In]; tauto]). }
    assert (t <> k) as Htk by (intros ->; congruence).
    destruct (plain_twin_commits gs l gs1 f t KING k Hwf Hr Hl Hmem Hf Ht Hp
                ltac:(discriminate) Hk Hpk Htk)
      as (b1 & gs' & Hb1 & Hs1 & Hcm & Hbd & Hh).
    destruct (make_move_castle_rook _ f t r r' _ KING Hwf Hs Hp) as (b2 & Hb2 & Hs2).
    assert (piece_at b1 r = piece_at (board gs) r) as Hkeep.
    { rewrite !piece_at_cell by exact Hr'. rewrite Hs1.
      unfold wf_board in Hwf. cells. }
    assert (piece_at (board gs) r <> None) as Hvic
      by (rewrite Hrk; discriminate).
    exists b1, b2, r, gs'. subst m.
    split; [exact Hcm|]. split; [exact Hbd|]. split; [exact Hh|].
    split; [exact Hb1|]. split; [exact Hb2|]. split; [exact Hkeep|].
    split; [exact Hvic|]. split; [exact Hs2|].
    exact (Hdiff b1 b2 _ Hkeep Hvic Hs2).
Qed.

(** C7 (amended). On a board with one king a side and in an ongoing game,
    [_is_insufficient_material] answers true exactly when the pieces
    beside the kings are none, a single bishop or knight, or two bishops
    of opposite colours on squares of the same shade.  The result
    recomputation returns, and it declares a draw by insufficient material
    exactly when, in addition, none of the rules it tests first applies:
    the side to move has a legal move, the halfmove clock is below 100 and
    the position has been recorded fewer than three times. *)
Theorem insufficient_material_exactly gs l g :
  wf_board (board gs) -> one_king_each (board gs) ->
  result gs = ONGOING ->
  legal_moves gs = Ok (l, g) ->
  (_is_insufficient_material gs = true <-> spec_insufficient_material (board gs))
  /\ exists gs',
       _update_result gs = Ok gs'
       /\ (result gs' = DRAW /\ draw_reason gs' = Some INSUFFICIENT
           <-> l <> [] /\ halfmove_clock (board gs) < 100
               /\ count_of gs (hash_board (_hasher gs) (board gs)) < 3
               /\ spec_insufficient_material (board gs)).
Proof.
  intros Hwf Hk Hr Hl.
  pose proof (insufficient_material_iff gs Hk) as Hiff.
  split; [exact Hiff|].
  destruct (legal_moves_spec gs l g Hwf Hl) as [-> _].
  unfold _update_result. rewrite Hl. cbn [bind fst snd].
  destruct l as [|m l].
  - destruct (is_in_check _ _); eexists; (split; [reflexivity|]);
      cbn [set_result set_draw set_cached result draw_reason];
      (split; [intros [? ?]; try destruct (turn _); congruence
              | intros [? _]; congruence]).
  - cbn [set_cached board _hasher].
    change (count_of (set_cached gs (Some (m :: l))) (hash_board (_hasher gs) (board gs)))
      with (count_of gs (hash_board (_hasher gs) (board gs))).
    change (_is_insufficient_material (set_cached gs (Some (m :: l))))
      with (_is_insufficient_material gs).
    destruct (Z.leb_spec 100 (halfmove_clock (board gs))) as [Hge|Hlt].
    { eexists. split; [reflexivity|]. cbn [set_draw result draw_reason].
      split; [intros [_ ?]; congruence | intros (_ & ? & _); lia]. }
    destruct (Z.leb_spec 3 (count_of gs (hash_board (_hasher gs) (board gs))))
      as [H3|H3].
    { eexists. split; [reflexivity|]. cbn [set_draw result draw_reason].
      split; [intros [_ ?]; congruence | intros (_ & _ & ? & _); lia]. }
    destruct (_is_insufficient_material gs) eqn:E; eexists; (split; [reflexivity|]).
    + cbn [set_draw result draw_reason]. split.
      * intros _. split; [discriminate|]. split; [exact Hlt|]. split; [exact H3|].
        apply Hiff. reflexivity.
      * auto.
    + cbn [set_cached result draw_reason]. rewrite Hr. split.
      * intros [? _]. discriminate.
      * intros (_ & _ & _ & Hs). apply Hiff in Hs. discriminate.
Qed.

(** C7 (as stated) fails: after Kc6xb6 the pieces are king and bishop
    against the bare king, yet the recomputation finds Black without a
    legal move and declares a draw by stalemate, the rule it tests first. *)
Lemma bare_minor_declared_stalemate :
  exists gs',
    GameState_make_move bishop_ending (Move_plain 18 17) = Ok (true, gs')
    /\ one_king_each (board gs')
    /\ spec_insufficient_material (board gs')
    /\ _is_insufficient_material gs' = true
    /\ result gs' = DRAW
    /\ draw_reason gs' = Some STALEMATE
    /\ draw_reason gs' <> Some INSUFFICIENT.
Proof.
  eexists. split; [vm_compute; reflexivity|].
  split; [split; vm_compute; reflexivity|].
  split.
  { right. left. exists 8, WHITE, BISHOP. split; [vm_compute; reflexivity|auto]. }
  split; [vm_compute; reflexivity|].
  split; [vm_compute; reflexivity|].
  split; [vm_compute; reflexivity|].
  vm_compute. discriminate.
Qed.

Lemma insufficient_material_exactly_witness :
  exists gs',
    _update_result bishops_game = Ok gs'
    /\ result gs' = DRAW /\ draw_reason gs' = Some INSUFFICIENT.
Proof.
  assert (wf_board (board bishops_game)) as Hwf by (vm_compute; reflexivity).
  assert (one_king_each (board bishops_game)) as Hk
    by (split; vm_compute; reflexivity).
  assert (result bishops_game = ONGOING) as Hr by (vm_compute; reflexivity).
  eassert (legal_moves bishops_game = Ok (_ :: _, _)) as Hl
    by (vm_compute; reflexivity).
  destruct (insufficient_material_exactly bishops_game _ _ Hwf Hk Hr Hl)
    as (Hiff & gs' & Hu & H).
  exists gs'. split; [exact Hu|]. apply H.
  split; [discriminate|].
  split; [vm_compute; reflexivity|].
  split; [vm_compute; reflexivity|].
  apply Hiff. vm_compute. reflexivity.
Defined.

Lemma flagless_twin_is_applied_witness :
  exists gs' b2,
    GameState_make_move castle_game (Move_plain 60 62) = Ok (true, gs')
    /\ _move_history gs' = [Move_plain 60 62]
    /\ make_move (board castle_game) (Move_castle 60 62) = Ok b2
    /\ squares (board gs') <> squares b2.
Proof.
  assert (wf_board (board castle_game)) as Hwf by (vm_compute; reflexivity).
  assert (result castle_game = ONGOING) as Hr by (vm_compute; reflexivity).
  assert (has_king (board castle_game) (other (turn (board castle_game)))) as Hk.
  { exists 4. split; [unfold onb; lia | vm_compute; reflexivity]. }
  generated (board castle_game) (Move_castle 60 62) Hg Hin.
  assert (_cached_legal castle_game = None) as Hc by (vm_compute; reflexivity).
  destruct (flagless_twin_is_applied castle_game (Move_castle 60 62) _ _
              Hwf Hr Hk Hg (or_introl Hc) Hin (or_introl eq_refl))
    as (_ & b1 & b2 & s & gs' & Hcm & Hbd & Hh & _ & E2 & _ & _ & _ & Hd).
  exists gs', b2. rewrite Hbd. auto.
Defined.

(** ** Further properties of the board and the generator *)










